(** * tsuru: the service deployment pipeline of [provision/servicecommon]

    A shallow embedding of [provision/servicecommon/actions.go]: the
    per-process deploy step [deployService], the compensation loop
    [rollbackAddedProcesses], the three pipeline actions and the entry
    point [RunServicePipeline], followed by the properties of the
    deployment specification that hold (or fail) on that code. The healing
    history of package [healer] ([toHealingEvt], [ListHealingHistory],
    [healingEventToEvent], [MigrateHealingToEvents]) is embedded in the
    module [Healer].

    The cluster backend and the image store are interfaces of the Go code;
    they are type classes over an abstract world here, and every call that
    crosses such an interface is recorded in the list of events a
    computation emits. *)

From Stdlib Require Import ZArith.
From stdpp Require Import gmap strings list sorting.

Local Open Scope string_scope.
Local Open Scope list_scope.
Local Open Scope Z_scope.

(** ** Machine integers

    Go's [int] is 64 bits wide on the platforms tsuru is built for; [+=]
    and [++] wrap around silently. *)

Definition int_min : Z := - 2 ^ 63.
Definition int_max : Z := 2 ^ 63 - 1.
Definition int_wrap (z : Z) : Z := (z + 2 ^ 63) mod 2 ^ 64 - 2 ^ 63.
Definition is_int (z : Z) : Prop := int_min <= z <= int_max.

(** ** Data model *)

(** [type ProcessState struct] *)
Record ProcessState : Type := mkProcessState {
  Stop : bool;
  Start : bool;
  Restart : bool;
  Sleep : bool;
  Increment : Z
}.

(** The zero value [ProcessState{}], which is also what indexing a Go map
    yields for a key that is absent. *)
Definition zeroState : ProcessState := mkProcessState false false false false 0.

(** [ProcessState{Start: true}] *)
Definition startState : ProcessState := mkProcessState false true false false 0.

(** [type ProcessSpec map[string]ProcessState] *)
Abbreviation ProcessSpec := (gmap string ProcessState).

(** [spec[p]] in Go: the zero value when [p] is not a key. *)
Definition specAt (spec : ProcessSpec) (p : string) : ProcessState :=
  default zeroState (spec !! p).

(** [provision.App]; the pipeline only ever asks for its name. *)
Record App : Type := mkApp { GetName : string }.

(** Go [error] values that can travel through the pipeline. *)
Inductive error : Type :=
| ErrNoProcessInfo (img : string)
    (* errors.Errorf("no process information found deploying image %q", img) *)
| ErrNegativeUnits
    (* errors.New("cannot have less than 0 units") *)
| ErrWithStack (e : error)
    (* errors.WithStack(e) *)
| ErrExternal (msg : string).
    (* an error produced by a collaborator *)

(** Modelled from the spec: [provision.LabelSet] is declared outside this
    file. The specification describes it as a value with accessors for the
    replica count, the restart count, the stopped flag and the asleep flag
    and with the setters "mark stopped", "mark asleep" and "set restart
    count"; the base labels carry the identity of the application, the
    process name and the replica count. *)
Record LabelSet : Type := mkLabelSet {
  labelApp : string;
  labelProcess : string;
  AppReplicas : Z;
  Restarts : Z;
  IsStopped : bool;
  IsAsleep : bool
}.

(** Modelled from the spec: the setter "mark stopped" of [LabelSet]. *)
Definition SetStopped (l : LabelSet) : LabelSet :=
  mkLabelSet (labelApp l) (labelProcess l) (AppReplicas l) (Restarts l) true (IsAsleep l).

(** Modelled from the spec: the setter "mark asleep" of [LabelSet]. *)
Definition SetAsleep (l : LabelSet) : LabelSet :=
  mkLabelSet (labelApp l) (labelProcess l) (AppReplicas l) (Restarts l) (IsStopped l) true.

(** Modelled from the spec: the setter "set restart count" of [LabelSet]. *)
Definition SetRestarts (n : Z) (l : LabelSet) : LabelSet :=
  mkLabelSet (labelApp l) (labelProcess l) (AppReplicas l) n (IsStopped l) (IsAsleep l).

(** [provision.ServiceLabelsOpts], with the three fields the deploy step fills. *)
Record ServiceLabelsOpts : Type := mkServiceLabelsOpts {
  optApp : App;
  optProcess : string;
  optReplicas : Z
}.

(** [image.ImageMetadata]; only the keys of [Processes] are read. *)
Record ImageMetadata : Type := mkImageMetadata {
  Processes : gmap string string
}.

(** [action.Result] is [interface{}]; the three actions produce either
    [nil] or a [[]string]. *)
Inductive Result : Type :=
| ResNil
| ResStrings (l : list string).

(** The arguments of [log.Errorf] at its two call sites. *)
Inductive LogEntry : Type :=
| LogRollbackError (appName processName : string) (err : error)
    (* "error rolling back updated service for %s[%s]: %+v" *)
| LogIgnoredRemoveError (appName processName : string) (err : error).
    (* "ignored error removing unwanted service for %s[%s]: %+v" *)

(** What a run does to its collaborators, in the order it does it. *)
Inductive Event : Type :=
| EvCurrentLabels (processName : string)
| EvDeployService (processName : string) (labels : LabelSet) (replicas : Z) (image : string)
| EvRemoveService (processName : string)
| EvAppCurrentImageName (appName : string)
| EvGetImageCustomData (img : string)
| EvAppendAppImageName (appName img : string)
| EvLog (entry : LogEntry).

(** The calls that reach the cluster backend (the [ServiceManager]). *)
Definition is_backend_call (ev : Event) : bool :=
  match ev with
  | EvCurrentLabels _ | EvDeployService _ _ _ _ | EvRemoveService _ => true
  | _ => false
  end.

Definition is_deploy_call (ev : Event) : bool :=
  match ev with EvDeployService _ _ _ _ => true | _ => false end.

(** The process an event is about, when it is about one. *)
Definition event_process (ev : Event) : option string :=
  match ev with
  | EvCurrentLabels p | EvDeployService p _ _ _ | EvRemoveService p => Some p
  | EvLog (LogRollbackError _ p _) | EvLog (LogIgnoredRemoveError _ p _) => Some p
  | _ => None
  end.

(** An event that is about one of the processes [names]. *)
Definition about (names : list string) (ev : Event) : Prop :=
  ∃ q, event_process ev = Some q ∧ q ∈ names.

(** The processes whose removal a list of events requests, in order. *)
Definition removals (events : list Event) : list string :=
  omap (λ ev, match ev with EvRemoveService p => Some p | _ => None end) events.

(** ** Interfaces *)

(** [type ServiceManager interface]. A Go [(T, error)] result is a sum:
    the callers below look at the value only when the error is [nil]. *)
Class ServiceManager (W : Type) : Type := {
  RemoveService : App → string → W → option error * W;
  CurrentLabels : App → string → W → (option LabelSet + error) * W;
  DeployService : App → string → LabelSet → Z → string → W → option error * W
}.

(** The three functions of package [image] the pipeline calls. *)
Class ImageStore (W : Type) : Type := {
  AppCurrentImageName : string → W → (string + error) * W;
  GetImageCustomData : string → W → (ImageMetadata + error) * W;
  AppendAppImageName : string → string → W → option error * W
}.

(** ** The monad of the embedding: world passing plus emitted events *)

Definition M (W A : Type) : Type := W → A * W * list Event.

Definition ret {W A} (a : A) : M W A := λ w, (a, w, []).

Definition bind {W A B} (m : M W A) (f : A → M W B) : M W B :=
  λ w, match m w with
       | (a, w1, t1) => match f a w1 with (b, w2, t2) => (b, w2, t1 ++ t2) end
       end.

Definition call {W A} (op : W → A * W) (ev : Event) : M W A :=
  λ w, match op w with (a, w') => (a, w', [ev]) end.

Definition logErrorf {W} (entry : LogEntry) : M W unit :=
  λ w, (tt, w, [EvLog entry]).

Notation "'let*' x ':=' m 'in' k" := (bind m (λ x, k))
  (at level 10, x name, m at level 100, k at level 200).
Notation "'run' m 'then' k" := (bind m (λ _, k))
  (at level 10, m at level 100, k at level 200).

Definition value_of {W A} (r : A * W * list Event) : A := r.1.1.
Definition world_of {W A} (r : A * W * list Event) : W := r.1.2.
Definition events_of {W A} (r : A * W * list Event) : list Event := r.2.

(** ** The pipeline *)

Section Pipeline.

Context {W : Type} `{!ServiceManager W} `{!ImageStore W}.

(** The validation the label builder applies to its options: [None] when
    they are accepted, the validation error otherwise. *)
Variable labelsCheck : ServiceLabelsOpts → option error.

(** Modelled from the spec: [provision.ServiceLabels] is declared outside
    this file. Given the application identity, the process name and the
    replica count it "produces a labels value or fails with a validation
    error (e.g. malformed identifiers)". The labels built on success are
    the base labels: no stopped or asleep marker and no restart count
    yet. *)
Definition ServiceLabels (opts : ServiceLabelsOpts) : LabelSet + error :=
  match labelsCheck opts with
  | Some err => inr err
  | None =>
      inl (mkLabelSet (GetName (optApp opts)) (optProcess opts)
                      (optReplicas opts) 0 false false)
  end.

(** The order in which Go's [range] visits the keys of a map: it is not
    specified by the language, so it is a parameter; all that is known
    of it is that every key is visited exactly once. *)
Variable rangeKeys : gset string → list string.
Hypothesis rangeKeys_perm : ∀ s, rangeKeys s ≡ₚ elements s.

(** [type pipelineArgs struct]; the [manager] field is the
    [ServiceManager] instance of the world. *)
Record pipelineArgs : Type := mkPipelineArgs {
  app : App;
  newImage : string;
  newImageSpec : ProcessSpec;
  currentImage : string;
  currentImageSpec : ProcessSpec
}.

(** *** [deployService] *)

(** The four local variables of [deployService]. *)
Record runtimeState : Type := mkRuntimeState {
  replicas : Z;
  restartCount : Z;
  isStopped : bool;
  isAsleep : bool
}.

(** Lines 104-113: the locals start at zero and are seeded from the old
    labels when there are some. *)
Definition seedState (oldLabels : option LabelSet) : runtimeState :=
  match oldLabels with
  | Some l => mkRuntimeState (AppReplicas l) (Restarts l) (IsStopped l) (IsAsleep l)
  | None => mkRuntimeState 0 0 false false
  end.

(** Lines 114-119: [replicas += pState.Increment], guarded by
    [pState.Increment != 0]. *)
Definition applyIncrement (pState : ProcessState) (s : runtimeState) :
    runtimeState + error :=
  if decide (Increment pState ≠ 0) then
    let replicas := int_wrap (replicas s + Increment pState) in
    if decide (replicas < 0) then inr ErrNegativeUnits
    else inl (mkRuntimeState replicas (restartCount s) (isStopped s) (isAsleep s))
  else inl s.

(** Lines 120-126: a start or a restart. *)
Definition applyStart (pState : ProcessState) (s : runtimeState) : runtimeState :=
  if Start pState || Restart pState then
    mkRuntimeState (if decide (replicas s = 0) then 1 else replicas s)
                   (restartCount s) false false
  else s.

(** Lines 104-126 together: the state after the request is merged into
    the old labels. *)
Definition mergeState (pState : ProcessState) (oldLabels : option LabelSet) :
    runtimeState + error :=
  match applyIncrement pState (seedState oldLabels) with
  | inr err => inr err
  | inl s => inl (applyStart pState s)
  end.

(** Lines 135-146: the labels are marked and [realReplicas] is chosen. *)
Definition markLabels (pState : ProcessState) (s : runtimeState) (labels : LabelSet) :
    LabelSet * Z :=
  let realReplicas := replicas s in
  let '(realReplicas, labels) :=
    if isStopped s || Stop pState then (0, SetStopped labels)
    else (realReplicas, labels) in
  let labels := if isAsleep s || Sleep pState then SetAsleep labels else labels in
  let labels :=
    if Restart pState then SetRestarts (int_wrap (restartCount s + 1)) labels
    else labels in
  (labels, realReplicas).

Definition callCurrentLabels (a : App) (processName : string) :
    M W (option LabelSet + error) :=
  call (CurrentLabels a processName) (EvCurrentLabels processName).

Definition callDeployService (a : App) (processName : string) (labels : LabelSet)
    (replicas : Z) (image : string) : M W (option error) :=
  call (DeployService a processName labels replicas image)
       (EvDeployService processName labels replicas image).

Definition callRemoveService (a : App) (processName : string) : M W (option error) :=
  call (RemoveService a processName) (EvRemoveService processName).

(** [func deployService(args *pipelineArgs, processName, image string,
    pState ProcessState) error] *)
Definition deployService (args : pipelineArgs) (processName image : string)
    (pState : ProcessState) : M W (option error) :=
  let* r := callCurrentLabels (app args) processName in
  match r with
  | inr err => ret (Some err)
  | inl oldLabels =>
      match mergeState pState oldLabels with
      | inr err => ret (Some err)
      | inl s =>
          match ServiceLabels (mkServiceLabelsOpts (app args) processName (replicas s)) with
          | inr err => ret (Some err)
          | inl labels =>
              let '(labels, realReplicas) := markLabels pState s labels in
              callDeployService (app args) processName labels realReplicas image
          end
      end
  end.

(** *** [rollbackAddedProcesses] *)

(** The body of the loop: compensate one process and log the error. *)
Definition rollbackProcess (args : pipelineArgs) (processName : string) : M W unit :=
  let* err :=
    match currentImageSpec args !! processName with
    | Some state => deployService args processName (currentImage args) state
    | None => callRemoveService (app args) processName
    end in
  match err with
  | Some e => logErrorf (LogRollbackError (GetName (app args)) processName e)
  | None => ret tt
  end.

(** [func rollbackAddedProcesses(args *pipelineArgs, processes []string)] *)
Fixpoint rollbackAddedProcesses (args : pipelineArgs) (processes : list string) :
    M W unit :=
  match processes with
  | [] => ret tt
  | processName :: rest =>
      run rollbackProcess args processName then
      rollbackAddedProcesses args rest
  end.

(** *** The [action] package *)

(** Modelled from the spec: [action.FWContext], declared in package
    [action]. [Params[0]] is always the [*pipelineArgs] of the run, so the
    context carries it with its type; [Previous] is the result of the
    stage before. *)
Record FWContext : Type := mkFWContext {
  fwParams : pipelineArgs;
  Previous : Result
}.

(** Modelled from the spec: [action.BWContext]; [FWResult] is the result
    of the forward operation that is being compensated. *)
Record BWContext : Type := mkBWContext {
  bwParams : pipelineArgs;
  FWResult : Result
}.

(** Modelled from the spec: [action.Action], a stage with "a forward
    operation and an optional compensation operation"; [Backward] is [None]
    for an action without compensation. *)
Record Action : Type := mkAction {
  Name : string;
  Forward : FWContext → M W (Result + error);
  Backward : option (BWContext → M W unit)
}.

(** Modelled from the spec: the pipeline driver of package [action] is
    not part of this file. "The pipeline driver executes forward stages in
    order and, on failure, invokes compensation for every
    already-completed stage in reverse order"; a compensation receives
    the result of its own forward operation. [completed] lists the stages
    already completed, latest first. *)
Fixpoint pipelineRollback (completed : list (Action * Result)) (params : pipelineArgs) :
    M W unit :=
  match completed with
  | [] => ret tt
  | (a, r) :: rest =>
      run match Backward a with
          | Some backward => backward (mkBWContext params r)
          | None => ret tt
          end then
      pipelineRollback rest params
  end.

(** Modelled from the spec: the forward half of the driver. A stage that
    fails ends the run with its error after the completed stages are
    compensated; a stage that succeeds hands its result to the next. *)
Fixpoint pipelineForward (actions : list Action) (completed : list (Action * Result))
    (params : pipelineArgs) (previous : Result) : M W (option error) :=
  match actions with
  | [] => ret None
  | a :: rest =>
      let* r := Forward a (mkFWContext params previous) in
      match r with
      | inr err => run pipelineRollback completed params then ret (Some err)
      | inl res => pipelineForward rest ((a, res) :: completed) params res
      end
  end.

(** Modelled from the spec: [Pipeline.Execute], the driver started
    with no stage completed and no previous result. *)
Definition Execute (actions : list Action) (params : pipelineArgs) : M W (option error) :=
  pipelineForward actions [] params ResNil.

(** *** [updateServices] *)

(** The deploy loop of [updateServices.Forward], lines 163-169. It ends
    at the first error; [deployedProcesses] is the slice appended to. *)
Fixpoint deployLoop (args : pipelineArgs) (toDeployProcesses deployedProcesses : list string) :
    M W (list string * option error) :=
  match toDeployProcesses with
  | [] => ret (deployedProcesses, None)
  | processName :: rest =>
      let* err := deployService args processName (newImage args)
                                (specAt (newImageSpec args) processName) in
      match err with
      | Some e => ret (deployedProcesses, Some e)
      | None => deployLoop args rest (deployedProcesses ++ [processName])
      end
  end.

(** [deploys args names w w' t]: the deploy steps of [names] with the new
    image, taken one after the other from the world [w], all succeed;
    they leave the world [w'] and emit the events [t]. *)
Inductive deploys (args : pipelineArgs) : list string → W → W → list Event → Prop :=
| deploys_nil w : deploys args [] w w []
| deploys_cons p names w w1 t1 w2 t2 :
    deployService args p (newImage args) (specAt (newImageSpec args) p) w = (None, w1, t1) →
    deploys args names w1 w2 t2 →
    deploys args (p :: names) w w2 (t1 ++ t2).

(** [compensates args names w w' t]: the processes [names] are
    compensated one after the other, in that order, from the world [w]. *)
Inductive compensates (args : pipelineArgs) : list string → W → W → list Event → Prop :=
| compensates_nil w : compensates args [] w w []
| compensates_cons p names w w1 t1 w2 t2 :
    rollbackProcess args p w = (tt, w1, t1) →
    compensates args names w1 w2 t2 →
    compensates args (p :: names) w w2 (t1 ++ t2).

(** Lines 159-162: the keys of the new spec, then [sort.Strings]. *)
Definition toDeploy (args : pipelineArgs) : list string :=
  merge_sort String.le (rangeKeys (dom (newImageSpec args))).

Definition updateServices_Forward (ctx : FWContext) : M W (Result + error) :=
  let args := fwParams ctx in
  let* r := deployLoop args (toDeploy args) [] in
  match r.2 with
  | Some err => run rollbackAddedProcesses args r.1 then ret (inr err)
  | None => ret (inl (ResStrings r.1))
  end.

(** [ctx.FWResult.([]string)]: the driver hands an action the result of
    its own [Forward], which is a [[]string] here. *)
Definition updateServices_Backward (ctx : BWContext) : M W unit :=
  match FWResult ctx with
  | ResStrings deployedProcesses => rollbackAddedProcesses (bwParams ctx) deployedProcesses
  | ResNil => ret tt
  end.

Definition updateServices : Action :=
  mkAction "update-services" updateServices_Forward (Some updateServices_Backward).

(** *** [updateImageInDB] *)

Definition callAppendAppImageName (appName img : string) : M W (option error) :=
  call (AppendAppImageName appName img) (EvAppendAppImageName appName img).

Definition updateImageInDB_Forward (ctx : FWContext) : M W (Result + error) :=
  let args := fwParams ctx in
  let* err := callAppendAppImageName (GetName (app args)) (newImage args) in
  match err with
  | Some e => ret (inr (ErrWithStack e))
  | None => ret (inl (Previous ctx))
  end.

Definition updateImageInDB : Action :=
  mkAction "update-image-in-db" updateImageInDB_Forward None.

(** *** [removeOldServices] *)

(** Modelled from the spec: [set.FromMap], of package [set], which is not
    part of this file: the set of the keys of a map. *)
Definition FromMap (spec : ProcessSpec) : gset string := dom spec.

(** Modelled from the spec: [(Set).Difference], the "process names present
    as keys in [current] but absent as keys in [new]". *)
Definition Difference (old new : gset string) : gset string := old ∖ new.

(** The loop of [removeOldServices.Forward] over the names it visits. *)
Fixpoint removeLoop (args : pipelineArgs) (names : list string) : M W unit :=
  match names with
  | [] => ret tt
  | processName :: rest =>
      let* err := callRemoveService (app args) processName in
      run match err with
          | Some e => logErrorf (LogIgnoredRemoveError (GetName (app args)) processName e)
          | None => ret tt
          end then
      removeLoop args rest
  end.

Definition removeOldServices_Forward (ctx : FWContext) : M W (Result + error) :=
  let args := fwParams ctx in
  let old := FromMap (currentImageSpec args) in
  let new := FromMap (newImageSpec args) in
  run removeLoop args (rangeKeys (Difference old new)) then
  ret (inl ResNil).

Definition removeOldServices : Action :=
  mkAction "remove-old-services" removeOldServices_Forward None.

(** *** [RunServicePipeline] *)

Definition callAppCurrentImageName (appName : string) : M W (string + error) :=
  call (AppCurrentImageName appName) (EvAppCurrentImageName appName).

Definition callGetImageCustomData (img : string) : M W (ImageMetadata + error) :=
  call (GetImageCustomData img) (EvGetImageCustomData img).

(** Lines 52-55. *)
Definition buildCurrentSpec (processes : gmap string string) : ProcessSpec :=
  foldl (λ currentSpec p, <[p := zeroState]> currentSpec) ∅ (rangeKeys (dom processes)).

(** Lines 63-69; [updateSpec] is [None] for a [nil] map. *)
Definition buildNewSpec (processes : gmap string string) (updateSpec : option ProcessSpec) :
    ProcessSpec :=
  foldl (λ newSpec p,
           let newSpec := <[p := startState]> newSpec in
           match updateSpec with
           | Some u => <[p := specAt u p]> newSpec
           | None => newSpec
           end)
        ∅ (rangeKeys (dom processes)).

(** What the two assignments of lines 65-68 leave in [newSpec[p]]. *)
Definition requestedState (updateSpec : option ProcessSpec) (p : string) : ProcessState :=
  match updateSpec with
  | Some u => specAt u p
  | None => startState
  end.

(** [func RunServicePipeline(manager ServiceManager, a provision.App,
    newImg string, updateSpec ProcessSpec) error] *)
Definition RunServicePipeline (a : App) (newImg : string) (updateSpec : option ProcessSpec) :
    M W (option error) :=
  let* r := callAppCurrentImageName (GetName a) in
  match r with
  | inr err => ret (Some err)
  | inl curImg =>
      let* r := callGetImageCustomData curImg in
      match r with
      | inr err => ret (Some err)
      | inl currentImageData =>
          let currentSpec := buildCurrentSpec (Processes currentImageData) in
          let* r := callGetImageCustomData newImg in
          match r with
          | inr err => ret (Some err)
          | inl newImageData =>
              if decide (size (Processes newImageData) = 0%nat) then
                ret (Some (ErrNoProcessInfo newImg))
              else
                let newSpec := buildNewSpec (Processes newImageData) updateSpec in
                Execute [updateServices; updateImageInDB; removeOldServices]
                        (mkPipelineArgs a newImg newSpec curImg currentSpec)
          end
      end
  end.

End Pipeline.

(** ** A cluster held in memory

    An instance of the two interfaces on which runs can be evaluated: the
    services of the cluster are a map from process name to what was last
    deployed, [CurrentLabels] reads the labels of that map, [DeployService]
    overwrites an entry and [RemoveService] deletes it. Removing a process
    listed in [unremovable] fails and leaves the cluster as it is. *)

Record Service : Type := mkService {
  svcLabels : LabelSet;
  svcReplicas : Z;
  svcImage : string
}.

Record Cluster : Type := mkCluster {
  services : gmap string Service;
  imageData : gmap string ImageMetadata;
  appImages : gmap string (list string);
  unremovable : gset string
}.

Definition cluster_manager : ServiceManager Cluster := {|
  RemoveService _ processName c :=
    if decide (processName ∈ unremovable c) then
      (Some (ErrExternal "remove failed"), c)
    else
      (None, mkCluster (delete processName (services c)) (imageData c) (appImages c)
                       (unremovable c));
  CurrentLabels _ processName c :=
    (inl (svcLabels <$> services c !! processName), c);
  DeployService _ processName labels replicas image c :=
    (None, mkCluster (<[processName := mkService labels replicas image]> (services c))
                     (imageData c) (appImages c) (unremovable c))
|}.

Definition cluster_images : ImageStore Cluster := {|
  AppCurrentImageName appName c :=
    match last (default [] (appImages c !! appName)) with
    | Some img => (inl img, c)
    | None => (inr (ErrExternal "no images available for app"), c)
    end;
  GetImageCustomData img c :=
    (inl (default (mkImageMetadata ∅) (imageData c !! img)), c);
  AppendAppImageName appName img c :=
    (None, mkCluster (services c) (imageData c)
                     (<[appName := default [] (appImages c !! appName) ++ [img]]> (appImages c))
                     (unremovable c))
|}.

(** Every identifier is accepted by the label builder. *)
Definition labelsAlwaysValid : ServiceLabelsOpts → option error := λ _, None.

(** The processes a list of names declares (the values are not read). *)
Definition declares (names : list string) : ImageMetadata :=
  mkImageMetadata (list_to_map ((λ p, (p, "cmd")) <$> names)).

Definition tsuruApp : App := mkApp "myapp".

(** The images the store knows and the processes they declare. *)
Definition imageTable : gmap string ImageMetadata :=
  {[ "v1" := declares ["web"];
     "v2" := declares ["web"; "worker"];
     "v3" := declares ["web"; "api"; "worker"];
     "empty" := declares [] ]}.

(** A cluster with the services [svcs] whose application runs the image
    [current]; the processes [stuck] cannot be removed. *)
Definition clusterOf (svcs : gmap string Service) (current : string) (stuck : gset string) :
    Cluster :=
  mkCluster svcs imageTable {[ "myapp" := [current] ]} stuck.

(** The application runs ["v1"] and its only process [web] is deployed
    with the given labels and scale. *)
Definition clusterWith (webLabels : LabelSet) (webReplicas : Z) : Cluster :=
  clusterOf {[ "web" := mkService webLabels webReplicas "v1" ]} "v1" ∅.

Definition runningWeb : LabelSet := mkLabelSet "myapp" "web" 2 0 false false.
Definition stoppedWeb : LabelSet := mkLabelSet "myapp" "web" 2 0 true false.
Definition idleWeb : LabelSet := mkLabelSet "myapp" "web" 0 0 false false.

Definition scaleBy (n : Z) : ProcessState := mkProcessState false false false false n.
Definition stopState : ProcessState := mkProcessState true false false false 0.

(** The arguments of a run that takes the application from ["v1"] to
    [newImg] with the new spec [newSpec]. *)
Definition argsFor (newImg : string) (newSpec : ProcessSpec) : pipelineArgs :=
  mkPipelineArgs tsuruApp newImg newSpec "v1" {[ "web" := zeroState ]}.

(** ** What the deploy step asks for

    Lines 104-146 of [deployService] taken together: from the old labels
    and the requested state to the labels and the scale handed to
    [DeployService], or to the error that ends the step before that. *)

Definition deployPlan (labelsCheck : ServiceLabelsOpts → option error) (a : App)
    (processName : string) (pState : ProcessState) (oldLabels : option LabelSet) :
    LabelSet * Z + error :=
  match mergeState pState oldLabels with
  | inr err => inr err
  | inl s =>
      match ServiceLabels labelsCheck (mkServiceLabelsOpts a processName (replicas s)) with
      | inr err => inr err
      | inl labels => inl (markLabels pState s labels)
      end
  end.

(** ** The healing history of package [healer]

    The healer code lists the healing events of the event log in
    their old shape ([toHealingEvt], [ListHealingHistory]) and migrates
    the old healing collection into the event log
    ([healingEventToEvent], [MigrateHealingToEvents]). Everything these
    functions take from other packages is a parameter here: the types they
    only move around, the decoders of stored data, and the stores. *)

Module Healer.

(** Go [error] values of the healer code. *)
Inductive error : Type :=
| ErrInvalidAction (action : string)
    (* errors.Errorf("invalid action %q", data.Action) *)
| ErrExternal (msg : string).
    (* an error produced by a collaborator *)

(** What a call that may panic ends with. *)
Inductive Outcome : Type :=
| Returned (err : option error)
| Panicked.

(** The types of other packages, their zero values, the constants and the
    field accessors the healer code uses. *)
Class Domain : Type := {
  Time : Type;                      (* time.Time *)
  ObjectId : Type;                  (* bson.ObjectId *)
  Dynamic : Type;                   (* a value of another dynamic type in an interface{} *)
  NodeSpec : Type;                  (* provision.NodeSpec *)
  Container : Type;                 (* container.Container *)
  NodeChecks : Type;                (* healer.NodeChecks *)
  Payload : Type;                   (* the custom data stored with an event *)
  AppInfo : Type;                   (* app.App *)
  PermissionContext : Type;         (* permission.PermissionContext *)
  AllowedPermission : Type;         (* event.AllowedPermission *)
  Iter : Type;                      (* mgo.Iter *)
  zeroTime : Time;
  zeroNodeSpec : NodeSpec;
  zeroContainer : Container;
  zeroPayload : Payload;
  zeroAllowed : AllowedPermission;
  TargetTypeContainer : string;     (* event.TargetTypeContainer *)
  TargetTypeNode : string;          (* event.TargetTypeNode *)
  KindTypeInternal : string;        (* event.KindTypeInternal *)
  OwnerTypeInternal : string;       (* event.OwnerTypeInternal *)
  nodeAddress : NodeSpec → string;  (* .Address *)
  nodePool : NodeSpec → string;     (* .Metadata["pool"] *)
  containerID : Container → string; (* .ID *)
  containerAppName : Container → string;  (* .AppName *)
  appTeams : AppInfo → list string; (* .Teams *)
  appName : AppInfo → string;       (* .Name *)
  appPool : AppInfo → string;       (* .Pool *)
  poolReadEvents : list PermissionContext → AllowedPermission;
    (* event.Allowed(permission.PermPoolReadEvents, ...) *)
  appReadEvents : list PermissionContext → AllowedPermission;
    (* event.Allowed(permission.PermAppReadEvents, ...) *)
  ctxTeams : list string → list PermissionContext;
    (* permission.Contexts(permission.CtxTeam, ...) *)
  ctxApp : string → PermissionContext;   (* permission.Context(permission.CtxApp, ...) *)
  ctxPool : string → PermissionContext   (* permission.Context(permission.CtxPool, ...) *)
}.

Section Model.

Context `{Domain}.

(** What an [interface{}] field of a healing event holds when it is not
    [nil]. *)
Inductive IDValue : Type :=
| IdObject (oid : ObjectId)
| IdOther (v : Dynamic).

Inductive ExtraValue : Type :=
| ExtraChecks (c : NodeChecks)
| ExtraOther (v : Dynamic).

(** [type HealingEvent struct] *)
Record HealingEvent : Type := mkHealingEvent {
  ID : option IDValue;
  StartTime : Time;
  EndTime : Time;
  Action : string;
  Reason : string;
  Extra : option ExtraValue;
  FailingNode : NodeSpec;
  CreatedNode : NodeSpec;
  FailingContainer : Container;
  CreatedContainer : Container;
  Successful : bool;
  Error : string
}.

(** [var data HealingEvent] *)
Definition zeroHealingEvent : HealingEvent :=
  mkHealingEvent None zeroTime zeroTime "" "" None zeroNodeSpec zeroNodeSpec
                 zeroContainer zeroContainer false "".

(** [healer.NodeHealerCustomData], with the three fields used here. *)
Record NodeHealerCustomData : Type := mkNodeHealerCustomData {
  Node : NodeSpec;
  dataReason : string;
  LastCheck : option NodeChecks
}.

(** [event.Target] *)
Record Target : Type := mkTarget {
  targetType : string;
  targetValue : string
}.

(** [event.Owner] and [event.Kind] *)
Record Owner : Type := mkOwner { ownerType : string; ownerName : string }.
Record Kind : Type := mkKind { kindType : string; kindName : string }.

(** [event.Event], with the fields this file reads or writes; the fields
    it leaves alone keep their zero value. *)
Record Event : Type := mkEvent {
  UniqueID : ObjectId;
  evStartTime : Time;
  evEndTime : Time;
  evTarget : Target;
  evOwner : Owner;
  evKind : Kind;
  evAllowed : AllowedPermission;
  evError : string;
  StartCustomData : Payload;
  EndCustomData : Payload
}.

(** [event.Filter], with the three fields set here. *)
Record Filter : Type := mkFilter {
  filterKindName : string;
  filterKindType : string;
  filterTarget : Target
}.

(** The [interface{}] arguments of [RawInsert]. *)
Inductive CustomData : Type :=
| DataNodeHealer (d : NodeHealerCustomData)
| DataNode (n : NodeSpec)
| DataContainer (c : Container).

(** The decoders applied to stored data, [event.GetTargetType], the JSON
    round trip of [Extra] and [mgo.IsDup]. *)
Class Codec : Type := {
  decodeContainer : Payload → Container + error;
    (* StartData/EndData into a zero container.Container *)
  decodeNodeHealer : Payload → NodeHealerCustomData + error;
    (* StartData into a zero healer.NodeHealerCustomData *)
  decodeNodeSpec : Payload → NodeSpec + error;
    (* EndData into a zero provision.NodeSpec *)
  GetTargetType : string → string + error;
  recodeChecks : ExtraValue → option NodeChecks;
    (* json.Marshal, then json.Unmarshal into a nil *healer.NodeChecks *)
  IsDup : option error → bool
}.

(** The event log, the application store, the configuration and the old
    collection. *)
Class Store (W : Type) : Type := {
  List : Filter → W → (list Event + error) * W;
  RawInsert : Event → CustomData → CustomData → W → option error * W;
  GetByName : string → W → (AppInfo + error) * W;
  ConfigGetString : string → W → (string * option error) * W;
  Conn : W → option error * W;
  FindIter : string → W → Iter * W;
  IterNext : Iter → HealingEvent → W → (bool * HealingEvent) * W;
  IterClose : Iter → W → option error * W;
  CollClose : string → W → W
}.

(** The calls a run makes, in order. *)
Inductive Call : Type :=
| CallList (f : Filter)
| CallRawInsert (evt : Event) (startOpts endOpts : CustomData)
| CallGetByName (name : string)
| CallConfigGetString (key : string)
| CallConn
| CallFindIter (collection : string)
| CallIterNext (iter : Iter)
| CallIterClose (iter : Iter)
| CallCollClose (collection : string).

Definition is_insert (c : Call) : bool :=
  match c with CallRawInsert _ _ _ => true | _ => false end.

(** World passing with the list of calls made. *)
Definition HM (W A : Type) : Type := W → A * W * list Call.

Definition ret {W A} (a : A) : HM W A := λ w, (a, w, []).

Definition bind {W A B} (m : HM W A) (f : A → HM W B) : HM W B :=
  λ w, match m w with
       | (a, w1, t1) => match f a w1 with (b, w2, t2) => (b, w2, t1 ++ t2) end
       end.

Definition call {W A} (op : W → A * W) (c : Call) : HM W A :=
  λ w, match op w with (a, w') => (a, w', [c]) end.

Context `{Codec}.

(** [func toHealingEvt(evt *event.Event) (HealingEvent, error)]. The one
    caller drops the value when there is an error, so the result is a
    sum. *)
Definition toHealingEvt (evt : Event) : HealingEvent + error :=
  let healingEvt :=
    mkHealingEvent (Some (IdObject (UniqueID evt))) (evStartTime evt) (evEndTime evt)
                   (targetType (evTarget evt) +:+ "-healing") "" None
                   zeroNodeSpec zeroNodeSpec zeroContainer zeroContainer
                   (bool_decide (evError evt = "")) (evError evt) in
  if decide (targetType (evTarget evt) = TargetTypeContainer) then
    match decodeContainer (StartCustomData evt) with
    | inr err => inr err
    | inl failing =>
        match decodeContainer (EndCustomData evt) with
        | inr err => inr err
        | inl created =>
            inl (mkHealingEvent (ID healingEvt) (StartTime healingEvt) (EndTime healingEvt)
                                (Action healingEvt) (Reason healingEvt) (Extra healingEvt)
                                (FailingNode healingEvt) (CreatedNode healingEvt)
                                failing created
                                (Successful healingEvt) (Error healingEvt))
        end
    end
  else if decide (targetType (evTarget evt) = TargetTypeNode) then
    match decodeNodeHealer (StartCustomData evt) with
    | inr err => inr err
    | inl data =>
        match decodeNodeSpec (EndCustomData evt) with
        | inr err => inr err
        | inl createdNode =>
            inl (mkHealingEvent (ID healingEvt) (StartTime healingEvt) (EndTime healingEvt)
                                (Action healingEvt) (dataReason data)
                                (ExtraChecks <$> LastCheck data)
                                (Node data) createdNode
                                (FailingContainer healingEvt) (CreatedContainer healingEvt)
                                (Successful healingEvt) (Error healingEvt))
        end
    end
  else inl healingEvt.

(** The loop of [ListHealingHistory]: it ends at the first event that
    cannot be converted. *)
Fixpoint convertAll (evts : list Event) : list HealingEvent + error :=
  match evts with
  | [] => inl []
  | evt :: rest =>
      match toHealingEvt evt with
      | inr err => inr err
      | inl healingEvt =>
          match convertAll rest with
          | inr err => inr err
          | inl healingEvts => inl (healingEvt :: healingEvts)
          end
      end
  end.

Context {W : Type} `{!Store W}.

(** [func ListHealingHistory(filter string) ([]HealingEvent, error)] *)
Definition ListHealingHistory (filter : string) : HM W (list HealingEvent + error) :=
  let evtFilter := mkFilter "healer" KindTypeInternal (mkTarget "" "") in
  let evtFilter :=
    if decide (filter ≠ "") then
      match GetTargetType filter with
      | inl t => mkFilter (filterKindName evtFilter) (filterKindType evtFilter) (mkTarget t "")
      | inr _ => evtFilter
      end
    else evtFilter in
  bind (call (List evtFilter) (CallList evtFilter)) (λ r,
  match r with
  | inr err => ret (inr err)
  | inl evts => ret (convertAll evts)
  end).

(** [func oldHealingCollection()], which returns the collection or an
    error; the collection is known by its name. *)
Definition oldHealingCollection : HM W (string + error) :=
  bind (call (ConfigGetString "docker:healing:events_collection")
             (CallConfigGetString "docker:healing:events_collection")) (λ r,
  let name := if decide (r.1 = "") then "healing_events" else r.1 in
  bind (call Conn CallConn) (λ err,
  match err with
  | Some e => ret (inr e)
  | None => ret (inl name)
  end)).

(** The insertion that ends [healingEventToEvent], lines 380-389. *)
Definition insertEvent (data : HealingEvent) (oid : ObjectId) (target : Target)
    (allowed : AllowedPermission) (startOpts endOpts : CustomData) : HM W Outcome :=
  let evt :=
    mkEvent oid (StartTime data) (EndTime data) target
            (mkOwner OwnerTypeInternal "") (mkKind KindTypeInternal "healer")
            allowed (Error data) zeroPayload zeroPayload in
  bind (call (RawInsert evt startOpts endOpts) (CallRawInsert evt startOpts endOpts)) (λ err,
  if IsDup err then ret (Returned None) else ret (Returned err)).

(** [func healingEventToEvent(data *HealingEvent) error]. The type
    assertion [data.ID.(bson.ObjectId)] panics on any other id. *)
Definition healingEventToEvent (data : HealingEvent) : HM W Outcome :=
  match ID data with
  | Some (IdObject oid) =>
      if decide (Action data = "node-healing") then
        let target := mkTarget TargetTypeNode (nodeAddress (FailingNode data)) in
        let lastCheck :=
          match Extra data with
          | Some extra => recodeChecks extra
          | None => None
          end in
        let startOpts :=
          DataNodeHealer (mkNodeHealerCustomData (FailingNode data) (Reason data) lastCheck) in
        let endOpts := DataNode (CreatedNode data) in
        let poolName := nodePool (FailingNode data) in
        let allowed := poolReadEvents [ctxPool poolName] in
        insertEvent data oid target allowed startOpts endOpts
      else if decide (Action data = "container-healing") then
        let target := mkTarget TargetTypeContainer (containerID (FailingContainer data)) in
        let startOpts := DataContainer (FailingContainer data) in
        let endOpts := DataContainer (CreatedContainer data) in
        bind (call (GetByName (containerAppName (FailingContainer data)))
                   (CallGetByName (containerAppName (FailingContainer data)))) (λ r,
        let allowed :=
          match r with
          | inl a => appReadEvents (ctxTeams (appTeams a) ++ [ctxApp (appName a); ctxPool (appPool a)])
          | inr _ => appReadEvents []
          end in
        insertEvent data oid target allowed startOpts endOpts)
      else ret (Returned (Some (ErrInvalidAction (Action data))))
  | _ => ret Panicked
  end.

(** The loop of [MigrateHealingToEvents], lines 401-407. A cursor need not
    end, so the loop takes fuel; [None] is a run that used it up. *)
Fixpoint migrateLoop (fuel : nat) (iter : Iter) (data : HealingEvent) :
    HM W (option Outcome) :=
  match fuel with
  | O => ret None
  | S fuel =>
      bind (call (IterNext iter data) (CallIterNext iter)) (λ r,
      if r.1 then
        bind (healingEventToEvent r.2) (λ o,
        match o with
        | Returned None => migrateLoop fuel iter r.2
        | Returned (Some err) => ret (Some (Returned (Some err)))
        | Panicked => ret (Some Panicked)
        end)
      else
        bind (call (IterClose iter) (CallIterClose iter)) (λ err,
        ret (Some (Returned err))))
  end.

(** [migrated iter data w data' w' t n]: from the world [w], with [data]
    in the variable the cursor decodes into, [n] records are read and
    inserted without error; this leaves [data'] and [w'] and makes the
    calls [t]. *)
Inductive migrated (iter : Iter) :
    HealingEvent → W → HealingEvent → W → list Call → nat → Prop :=
| migrated_nil data w : migrated iter data w data w [] 0
| migrated_cons data w data1 w1 w2 t2 data3 w3 t3 n :
    IterNext iter data w = ((true, data1), w1) →
    healingEventToEvent data1 w1 = (Returned None, w2, t2) →
    migrated iter data1 w2 data3 w3 t3 n →
    migrated iter data w data3 w3 (CallIterNext iter :: t2 ++ t3) (S n).

(** [func MigrateHealingToEvents() error]; the deferred [coll.Close()]
    runs however the loop ends. *)
Definition MigrateHealingToEvents (fuel : nat) : HM W (option Outcome) :=
  bind oldHealingCollection (λ r,
  match r with
  | inr err => ret (Some (Returned (Some err)))
  | inl coll =>
      bind (call (FindIter coll) (CallFindIter coll)) (λ _,
      bind (call (FindIter coll) (CallFindIter coll)) (λ iter,
      bind (migrateLoop fuel iter zeroHealingEvent) (λ o,
      bind (call (λ w, (tt, CollClose coll w)) (CallCollClose coll)) (λ _,
      ret o))))
  end).

End Model.

End Healer.

(** ** Stores held in memory for the examples *)

(** An image store on the cluster held in memory that knows only the
    images of its table and cannot record a new one. *)
Definition cluster_images_readonly : ImageStore Cluster := {|
  AppCurrentImageName appName c :=
    match last (default [] (appImages c !! appName)) with
    | Some img => (inl img, c)
    | None => (inr (ErrExternal "no images available for app"), c)
    end;
  GetImageCustomData img c :=
    match imageData c !! img with
    | Some data => (inl data, c)
    | None => (inr (ErrExternal "image not found"), c)
    end;
  AppendAppImageName appName img c := (Some (ErrExternal "read-only store"), c)
|}.

Module HealerSample.

Import Healer.

(** What the events of the sample log store as custom data. *)
Inductive samplePayload : Type :=
| NoData
| ContainerData (id appName : string)
| NodeHealerData (address pool reason : string) (lastCheck : option nat)
| NodeSpecData (address pool : string)
| Garbage.

Definition sampleDomain : Domain := {|
  Time := nat;
  ObjectId := nat;
  Dynamic := string;
  NodeSpec := string * string;
  Container := string * string;
  NodeChecks := nat;
  Payload := samplePayload;
  AppInfo := list string * string * string;
  PermissionContext := string * string;
  AllowedPermission := string * list (string * string);
  Iter := nat;
  zeroTime := 0%nat;
  zeroNodeSpec := ("", "");
  zeroContainer := ("", "");
  zeroPayload := NoData;
  zeroAllowed := ("", []);
  TargetTypeContainer := "container";
  TargetTypeNode := "node";
  KindTypeInternal := "internal";
  OwnerTypeInternal := "internal";
  nodeAddress n := n.1;
  nodePool n := n.2;
  containerID c := c.1;
  containerAppName c := c.2;
  appTeams a := a.1.1;
  appName a := a.1.2;
  appPool a := a.2;
  poolReadEvents ctxs := ("pool.read.events", ctxs);
  appReadEvents ctxs := ("app.read.events", ctxs);
  ctxTeams teams := (λ t, ("team", t)) <$> teams;
  ctxApp name := ("app", name);
  ctxPool name := ("pool", name)
|}.

Definition sampleDecodeContainer (p : samplePayload) : string * string + error :=
  match p with
  | NoData => inl ("", "")
  | ContainerData id appName => inl (id, appName)
  | _ => inr (ErrExternal "cannot decode a container")
  end.

Definition sampleDecodeNodeHealer (p : samplePayload) :
    @NodeHealerCustomData sampleDomain + error :=
  match p with
  | NoData => inl (@mkNodeHealerCustomData sampleDomain ("", "") "" None)
  | NodeHealerData address pool reason lastCheck =>
      inl (@mkNodeHealerCustomData sampleDomain (address, pool) reason lastCheck)
  | _ => inr (ErrExternal "cannot decode the node data")
  end.

Definition sampleDecodeNodeSpec (p : samplePayload) : string * string + error :=
  match p with
  | NoData => inl ("", "")
  | NodeSpecData address pool => inl (address, pool)
  | _ => inr (ErrExternal "cannot decode a node")
  end.

Definition sampleGetTargetType (name : string) : string + error :=
  if decide (name = "container" ∨ name = "node" ∨ name = "app") then inl name
  else inr (ErrExternal "invalid event target type").

Definition sampleRecodeChecks (extra : @ExtraValue sampleDomain) : option nat :=
  match extra with
  | ExtraChecks c => Some c
  | ExtraOther _ => None
  end.

Definition sampleIsDup (err : option error) : bool :=
  match err with
  | Some (ErrExternal msg) => bool_decide (msg = "duplicate key")
  | _ => false
  end.

Definition sampleCodec : @Codec sampleDomain :=
  @Build_Codec sampleDomain sampleDecodeContainer sampleDecodeNodeHealer
               sampleDecodeNodeSpec sampleGetTargetType sampleRecodeChecks sampleIsDup.

(** The event log, the cursor over the old collection and the setting. *)
Record SampleStore : Type := mkSampleStore {
  eventLog : list (@Event sampleDomain);
  insertedIds : list nat;
  cursor : list (@HealingEvent sampleDomain);
  collectionSetting : string;
  connects : bool
}.

Definition sampleStore : @Store sampleDomain SampleStore := {|
  List f w :=
    (inl (filter (λ evt, targetType (filterTarget f) = "" ∨
                         targetType (evTarget evt) = targetType (filterTarget f))
                 (eventLog w)), w);
  RawInsert evt startOpts endOpts w :=
    if decide (UniqueID evt ∈ insertedIds w) then (Some (ErrExternal "duplicate key"), w)
    else (None, mkSampleStore (eventLog w) (insertedIds w ++ [UniqueID evt]) (cursor w)
                              (collectionSetting w) (connects w));
  GetByName name w := (inr (ErrExternal "app not found"), w);
  ConfigGetString key w := ((collectionSetting w, None), w);
  Conn w := (if connects w then None else Some (ErrExternal "no connection"), w);
  FindIter name w := (0%nat, w);
  IterNext iter data w :=
    match cursor w with
    | [] => ((false, data), w)
    | next :: rest =>
        ((true, next),
         mkSampleStore (eventLog w) (insertedIds w) rest (collectionSetting w) (connects w))
    end;
  IterClose iter w := (None, w);
  CollClose name w := w
|}.

(** A container healing that succeeded and a node healing that failed. *)
Definition containerEvent : @Event sampleDomain :=
  @mkEvent sampleDomain 7%nat 100%nat 110%nat (mkTarget "container" "c1")
           (mkOwner "internal" "") (mkKind "internal" "healer") ("", []) ""
           (ContainerData "c1" "myapp") (ContainerData "c2" "myapp").

Definition nodeEvent : @Event sampleDomain :=
  @mkEvent sampleDomain 8%nat 200%nat 230%nat (mkTarget "node" "10.0.0.1")
           (mkOwner "internal" "") (mkKind "internal" "healer") ("", []) "no machine"
           (NodeHealerData "10.0.0.1" "pool1" "unreachable" (Some 3%nat)) NoData.

Definition brokenEvent : @Event sampleDomain :=
  @mkEvent sampleDomain 9%nat 300%nat 301%nat (mkTarget "container" "c9")
           (mkOwner "internal" "") (mkKind "internal" "healer") ("", []) ""
           Garbage NoData.

(** Three records of the old collection: a node healing, a record with an
    action no migration knows, and a container healing. *)
Definition oldNode : @HealingEvent sampleDomain :=
  @mkHealingEvent sampleDomain (Some (@IdObject sampleDomain 1%nat)) 10%nat 20%nat "node-healing"
    "unreachable" None ("10.0.0.1", "pool1") ("10.0.0.2", "pool1") ("", "") ("", "")
    true "".

Definition oldUnknown : @HealingEvent sampleDomain :=
  @mkHealingEvent sampleDomain (Some (@IdObject sampleDomain 2%nat)) 30%nat 40%nat "machine-healing"
    "" None ("", "") ("", "") ("", "") ("", "") true "".

Definition oldContainer : @HealingEvent sampleDomain :=
  @mkHealingEvent sampleDomain (Some (@IdObject sampleDomain 3%nat)) 50%nat 60%nat "container-healing"
    "" None ("", "") ("", "") ("c1", "myapp") ("c2", "myapp") true "".

(** The one cursor of the sample store. *)
Definition sampleIter : @Iter sampleDomain := 0%nat.

(** What [toHealingEvt] lists for [containerEvent]. *)
Definition listedContainer : @HealingEvent sampleDomain :=
  @mkHealingEvent sampleDomain (Some (@IdObject sampleDomain 7%nat)) 100%nat 110%nat
    "container-healing" "" None ("", "") ("", "") ("c1", "myapp") ("c2", "myapp") true "".

Definition storeWith (events : list (@Event sampleDomain))
    (records : list (@HealingEvent sampleDomain)) : SampleStore :=
  mkSampleStore events [] records "" true.

End HealerSample.

(** ** Properties *)

(** *** Integers *)

Lemma int_wrap_id z : is_int z → int_wrap z = z.
Proof.
  unfold is_int, int_min, int_max, int_wrap. intros Hz.
  rewrite Z.mod_small by lia. lia.
Qed.

(** *** The monad *)

Section MonadFacts.

Context {W : Type}.

Lemma run_eta {A} (r : A * W * list Event) :
  r = (value_of r, world_of r, events_of r).
Proof. by destruct r as [[a w] t]. Qed.

End MonadFacts.

Section Properties.

Context {W : Type} `{!ServiceManager W} `{!ImageStore W}.
Variable labelsCheck : ServiceLabelsOpts → option error.
Variable rangeKeys : gset string → list string.
Hypothesis rangeKeys_perm : ∀ s, rangeKeys s ≡ₚ elements s.

Ltac run_deployService Hread :=
  unfold deployService, bind, callCurrentLabels, call; rewrite Hread; cbn beta iota.

(** *** The deploy step, case by case *)

Lemma deployService_read_error args p img pState w err w1 :
  CurrentLabels (app args) p w = (inr err, w1) →
  deployService labelsCheck args p img pState w = (Some err, w1, [EvCurrentLabels p]).
Proof.
  intros Hread. by run_deployService Hread.
Qed.

Lemma deployService_merge_error args p img pState w old w1 err :
  CurrentLabels (app args) p w = (inl old, w1) →
  mergeState pState old = inr err →
  deployService labelsCheck args p img pState w = (Some err, w1, [EvCurrentLabels p]).
Proof.
  intros Hread Hmerge. run_deployService Hread. by rewrite Hmerge.
Qed.

Lemma deployService_labels_error args p img pState w old w1 s err :
  CurrentLabels (app args) p w = (inl old, w1) →
  mergeState pState old = inl s →
  labelsCheck (mkServiceLabelsOpts (app args) p (replicas s)) = Some err →
  deployService labelsCheck args p img pState w = (Some err, w1, [EvCurrentLabels p]).
Proof.
  intros Hread Hmerge Hcheck. run_deployService Hread.
  rewrite Hmerge. unfold ServiceLabels. by rewrite Hcheck.
Qed.

(** The one path on which the backend is asked to deploy. *)
Lemma deployService_deploys args p img pState w old w1 s :
  CurrentLabels (app args) p w = (inl old, w1) →
  mergeState pState old = inl s →
  labelsCheck (mkServiceLabelsOpts (app args) p (replicas s)) = None →
  let base := mkLabelSet (GetName (app args)) p (replicas s) 0 false false in
  let labels := (markLabels pState s base).1 in
  let realReplicas := (markLabels pState s base).2 in
  deployService labelsCheck args p img pState w =
    ((DeployService (app args) p labels realReplicas img w1).1,
     (DeployService (app args) p labels realReplicas img w1).2,
     [EvCurrentLabels p; EvDeployService p labels realReplicas img]).
Proof.
  intros Hread Hmerge Hcheck. cbv zeta. run_deployService Hread.
  rewrite Hmerge. unfold ServiceLabels. rewrite Hcheck. cbn [optApp optProcess optReplicas].
  destruct (markLabels _ _ _) as [labels realReplicas] eqn:Hmark. cbn [fst snd].
  unfold callDeployService, call.
  by destruct (DeployService _ _ _ _ _ _) as [e w2].
Qed.

(** Whatever happens, the step begins by reading the labels of its own
    process, and every event of it is about that process. *)
Lemma deployService_cases args p img pState w :
  events_of (deployService labelsCheck args p img pState w) = [EvCurrentLabels p] ∧
    is_Some (value_of (deployService labelsCheck args p img pState w))
  ∨ ∃ old w1 s,
      CurrentLabels (app args) p w = (inl old, w1) ∧
      mergeState pState old = inl s ∧
      labelsCheck (mkServiceLabelsOpts (app args) p (replicas s)) = None.
Proof.
  destruct (CurrentLabels (app args) p w) as [[old|err] w1] eqn:Hread.
  - destruct (mergeState pState old) as [s|err] eqn:Hmerge.
    + destruct (labelsCheck (mkServiceLabelsOpts (app args) p (replicas s)))
        as [err|] eqn:Hcheck.
      * left. erewrite deployService_labels_error by eauto. eauto.
      * right. eauto 10.
    + left. erewrite deployService_merge_error by eauto. eauto.
  - left. erewrite deployService_read_error by eauto. eauto.
Qed.

(** *** What [markLabels] and [mergeState] compute *)

Lemma markLabels_real pState s l :
  (markLabels pState s l).2 = if isStopped s || Stop pState then 0 else replicas s.
Proof. unfold markLabels. by destruct (isStopped s || Stop pState). Qed.

Lemma markLabels_stopped pState s l :
  IsStopped (markLabels pState s l).1 = IsStopped l || (isStopped s || Stop pState).
Proof.
  unfold markLabels.
  destruct (isStopped s || Stop pState), (isAsleep s || Sleep pState), (Restart pState);
    cbn; by rewrite ?orb_true_r, ?orb_false_r.
Qed.

Lemma markLabels_asleep pState s l :
  IsAsleep (markLabels pState s l).1 = IsAsleep l || (isAsleep s || Sleep pState).
Proof.
  unfold markLabels.
  destruct (isStopped s || Stop pState), (isAsleep s || Sleep pState), (Restart pState);
    cbn; by rewrite ?orb_true_r, ?orb_false_r.
Qed.

Lemma markLabels_replicas pState s l :
  AppReplicas (markLabels pState s l).1 = AppReplicas l.
Proof.
  unfold markLabels.
  by destruct (isStopped s || Stop pState), (isAsleep s || Sleep pState), (Restart pState).
Qed.

Lemma markLabels_restarts pState s l :
  Restarts (markLabels pState s l).1 =
    if Restart pState then int_wrap (restartCount s + 1) else Restarts l.
Proof.
  unfold markLabels.
  by destruct (isStopped s || Stop pState), (isAsleep s || Sleep pState), (Restart pState).
Qed.

Lemma applyIncrement_zero pState s :
  Increment pState = 0 → applyIncrement pState s = inl s.
Proof. intros Hinc. unfold applyIncrement. by rewrite decide_False by lia. Qed.

Lemma applyIncrement_ok pState s s' :
  applyIncrement pState s = inl s' →
  restartCount s' = restartCount s ∧ isStopped s' = isStopped s ∧
  isAsleep s' = isAsleep s ∧
  replicas s' =
    (if decide (Increment pState ≠ 0) then int_wrap (replicas s + Increment pState)
     else replicas s).
Proof.
  unfold applyIncrement. repeat case_decide; intros; by simplify_eq.
Qed.

Lemma mergeState_started pState old s :
  Start pState || Restart pState = true →
  mergeState pState old = inl s →
  isStopped s = false ∧ isAsleep s = false ∧ replicas s ≠ 0.
Proof.
  unfold mergeState, applyStart. intros ->.
  destruct (applyIncrement _ _) as [s1|]; [|done].
  intros [= <-]. cbn. by case_decide.
Qed.

Lemma mergeState_not_started pState old s :
  Start pState = false → Restart pState = false →
  mergeState pState old = inl s →
  applyIncrement pState (seedState old) = inl s.
Proof.
  unfold mergeState, applyStart. intros -> ->.
  destruct (applyIncrement _ _) as [s1|]; [|done]. by intros [= <-].
Qed.

(** With a non-negative count and an increment that is a Go [int], the
    sum can only leave the range upwards. *)
Lemma mergeState_negative pState old :
  0 <= replicas (seedState old) →
  is_int (Increment pState) →
  replicas (seedState old) + Increment pState < 0 →
  mergeState pState old = inr ErrNegativeUnits.
Proof.
  intros Hpos Hint Hneg. unfold mergeState, applyIncrement.
  rewrite decide_True by lia.
  rewrite int_wrap_id by (unfold is_int, int_min, int_max in *; lia).
  by rewrite decide_True by lia.
Qed.

(** *** The specs built by [RunServicePipeline] *)

Lemma elem_of_rangeKeys (s : gset string) p : p ∈ rangeKeys s ↔ p ∈ s.
Proof. rewrite (rangeKeys_perm s). apply elem_of_elements. Qed.

Lemma buildNewSpec_fold updateSpec (ks : list string) (m : ProcessSpec) p :
  foldl (λ newSpec p,
           let newSpec := <[p := startState]> newSpec in
           match updateSpec with
           | Some u => <[p := specAt u p]> newSpec
           | None => newSpec
           end) m ks !! p =
    if decide (p ∈ ks) then Some (requestedState updateSpec p) else m !! p.
Proof.
  revert m. induction ks as [|k ks IH]; intros m; cbn [foldl].
  - by rewrite decide_False by apply not_elem_of_nil.
  - rewrite IH. destruct (decide (p ∈ ks)) as [Hin|Hnin].
    + by rewrite decide_True by (by right).
    + destruct (decide (p = k)) as [->|Hne].
      * rewrite decide_True by left. unfold requestedState.
        destruct updateSpec; by rewrite lookup_insert_eq.
      * rewrite decide_False by (by intros [?|?]%elem_of_cons).
        destruct updateSpec; by rewrite !lookup_insert_ne.
Qed.

Lemma buildNewSpec_lookup_dec processes updateSpec p :
  buildNewSpec rangeKeys processes updateSpec !! p =
    if decide (p ∈ dom processes) then Some (requestedState updateSpec p) else None.
Proof.
  unfold buildNewSpec. rewrite buildNewSpec_fold, lookup_empty.
  destruct (decide (p ∈ dom processes)) as [Hin|Hnin].
  - by rewrite decide_True by (by apply elem_of_rangeKeys).
  - by rewrite decide_False by (by rewrite elem_of_rangeKeys).
Qed.

Lemma buildCurrentSpec_fold (ks : list string) (m : ProcessSpec) p :
  foldl (λ currentSpec p, <[p := zeroState]> currentSpec) m ks !! p =
    if decide (p ∈ ks) then Some zeroState else m !! p.
Proof.
  revert m. induction ks as [|k ks IH]; intros m; cbn [foldl].
  - by rewrite decide_False by apply not_elem_of_nil.
  - rewrite IH. destruct (decide (p ∈ ks)) as [Hin|Hnin].
    + by rewrite decide_True by (by right).
    + destruct (decide (p = k)) as [->|Hne].
      * rewrite decide_True by left. by rewrite lookup_insert_eq.
      * rewrite decide_False by (by intros [?|?]%elem_of_cons).
        by rewrite lookup_insert_ne.
Qed.

Lemma buildCurrentSpec_lookup_dec processes p :
  buildCurrentSpec rangeKeys processes !! p =
    if decide (p ∈ dom processes) then Some zeroState else None.
Proof.
  unfold buildCurrentSpec. rewrite buildCurrentSpec_fold, lookup_empty.
  destruct (decide (p ∈ dom processes)) as [Hin|Hnin].
  - by rewrite decide_True by (by apply elem_of_rangeKeys).
  - by rewrite decide_False by (by rewrite elem_of_rangeKeys).
Qed.

Lemma dom_buildNewSpec processes updateSpec :
  dom (buildNewSpec rangeKeys processes updateSpec) = dom processes.
Proof.
  apply set_eq. intros p. rewrite elem_of_dom, buildNewSpec_lookup_dec.
  case_decide; [|by split; [intros [? ?]|]]. split; eauto.
Qed.

(** A deploy call seen in the events of the step is the one of the
    successful path. *)
Lemma deployService_deploy_event args p img pState w q labels n i :
  EvDeployService q labels n i ∈ events_of (deployService labelsCheck args p img pState w) →
  ∃ old w1 s,
    CurrentLabels (app args) p w = (inl old, w1) ∧
    mergeState pState old = inl s ∧
    labelsCheck (mkServiceLabelsOpts (app args) p (replicas s)) = None ∧
    q = p ∧ i = img ∧
    labels = (markLabels pState s (mkLabelSet (GetName (app args)) p (replicas s) 0 false false)).1 ∧
    n = (markLabels pState s (mkLabelSet (GetName (app args)) p (replicas s) 0 false false)).2.
Proof.
  destruct (deployService_cases args p img pState w) as [[Hev _]|(old & w1 & s & Hread & Hmerge & Hcheck)].
  - rewrite Hev. intros Hin%list_elem_of_singleton. discriminate Hin.
  - rewrite (deployService_deploys _ _ _ _ _ _ _ _ Hread Hmerge Hcheck).
    unfold events_of. cbn [snd]. intros Hin.
    apply elem_of_cons in Hin as [Hin|Hin]; [discriminate Hin|].
    apply list_elem_of_singleton in Hin. injection Hin as -> -> -> ->.
    exists old, w1, s. done.
Qed.

(** *** Claims about the deploy step *)

(** C5 (amended). For a process whose observed replica count is not
    negative and whose requested [Increment] would drive that count below
    zero, the deploy step fails with the invalid-scale error
    ("cannot have less than 0 units") and asks the backend neither to
    deploy nor to remove anything: the only backend call made for the
    process is the label read that supplies the count, and the world is
    the one that read left. *)
Theorem negative_scale_is_rejected args p img pState w old w1 :
  CurrentLabels (app args) p w = (inl old, w1) →
  0 <= replicas (seedState old) →
  is_int (Increment pState) →
  replicas (seedState old) + Increment pState < 0 →
  deployService labelsCheck args p img pState w =
    (Some ErrNegativeUnits, w1, [EvCurrentLabels p]).
Proof.
  intros Hread Hpos Hint Hneg.
  eapply deployService_merge_error; [exact Hread|].
  by apply mergeState_negative.
Qed.

(** C6 (amended). On a process whose replica count is zero, a request
    with [Start: true] or [Restart: true] and [Increment] 0 yields
    [replicas = 1] after the merge with the stopped and the asleep flag
    cleared, and the deploy call carries that count; with a positive
    [Increment] in the same call the merged count is the increment itself
    (flags cleared as well), and with a negative one the merge fails with
    the invalid-scale error. *)
Theorem start_on_zero_replicas pState old :
  Start pState || Restart pState = true →
  replicas (seedState old) = 0 →
  is_int (Increment pState) →
  (Increment pState = 0 →
     ∃ s, mergeState pState old = inl s ∧
          replicas s = 1 ∧ isStopped s = false ∧ isAsleep s = false ∧
          ∀ args p img w w1,
            CurrentLabels (app args) p w = (inl old, w1) →
            labelsCheck (mkServiceLabelsOpts (app args) p 1) = None →
            ∃ labels,
              events_of (deployService labelsCheck args p img pState w) =
                [EvCurrentLabels p;
                 EvDeployService p labels (if Stop pState then 0 else 1) img] ∧
              AppReplicas labels = 1 ∧
              IsStopped labels = Stop pState ∧ IsAsleep labels = Sleep pState) ∧
  (0 < Increment pState →
     ∃ s, mergeState pState old = inl s ∧
          replicas s = Increment pState ∧ isStopped s = false ∧ isAsleep s = false) ∧
  (Increment pState < 0 → mergeState pState old = inr ErrNegativeUnits).
Proof.
  intros Hstart Hzero Hint. split; [|split].
  - intros Hinc.
    assert (mergeState pState old =
              inl (mkRuntimeState 1 (restartCount (seedState old)) false false)) as Hmerge.
    { unfold mergeState, applyStart. rewrite applyIncrement_zero by done.
      rewrite Hstart. by rewrite decide_True by done. }
    eexists. split; [exact Hmerge|]. cbn. repeat split.
    intros args p img w w1 Hread Hcheck.
    rewrite (deployService_deploys _ _ _ _ _ _ _ _ Hread Hmerge Hcheck).
    eexists. unfold events_of. cbn [snd]. split; [|split; [|split]].
    + f_equal. f_equal. f_equal. rewrite markLabels_real. cbn. done.
    + by rewrite markLabels_replicas.
    + rewrite markLabels_stopped. done.
    + rewrite markLabels_asleep. done.
  - intros Hinc. unfold mergeState, applyIncrement, applyStart.
    rewrite decide_True by lia. rewrite Hzero, Z.add_0_l, int_wrap_id by done.
    rewrite decide_False by lia. rewrite Hstart. eexists. split; [done|]. cbn.
    by rewrite decide_False by lia.
  - intros Hinc. apply mergeState_negative; [lia|done|lia].
Qed.

(** C9. A requested [Stop] forces the deployed scale to zero: whatever
    else the state asks for ([Start], [Restart], [Sleep], an increment),
    every deploy call the step makes carries [realReplicas = 0] and
    labels with the stopped marker, and the step does make that call
    whenever the label read, the merge and the label builder succeed. *)
Theorem stop_takes_precedence args p img pState w :
  Stop pState = true →
  (∀ q labels n i,
     EvDeployService q labels n i ∈ events_of (deployService labelsCheck args p img pState w) →
     n = 0 ∧ IsStopped labels = true) ∧
  (∀ old w1 s,
     CurrentLabels (app args) p w = (inl old, w1) →
     mergeState pState old = inl s →
     labelsCheck (mkServiceLabelsOpts (app args) p (replicas s)) = None →
     ∃ labels,
       events_of (deployService labelsCheck args p img pState w) =
         [EvCurrentLabels p; EvDeployService p labels 0 img] ∧
       IsStopped labels = true ∧ AppReplicas labels = replicas s).
Proof.
  intros Hstop. split.
  - intros q labels n i Hin.
    apply deployService_deploy_event in Hin
      as (old & w1 & s & _ & _ & _ & _ & _ & -> & ->).
    rewrite markLabels_real, markLabels_stopped, Hstop, !orb_true_r. done.
  - intros old w1 s Hread Hmerge Hcheck.
    rewrite (deployService_deploys _ _ _ _ _ _ _ _ Hread Hmerge Hcheck).
    eexists. unfold events_of. cbn [snd]. split; [|split].
    + f_equal. f_equal. f_equal. by rewrite markLabels_real, Hstop, orb_true_r.
    + by rewrite markLabels_stopped, Hstop, !orb_true_r.
    + by rewrite markLabels_replicas.
Qed.

(** C10. A requested [Sleep] never scales a process down: with
    [Sleep: true] and [Stop: false] on a process that is not already
    marked stopped, every deploy call of the step carries labels with the
    asleep marker and without the stopped marker, and [realReplicas] is
    the computed replica count recorded in those labels; the call is made
    whenever the merge and the label builder succeed. *)
Theorem sleep_does_not_scale_down args p img pState w old w1 :
  Sleep pState = true →
  Stop pState = false →
  CurrentLabels (app args) p w = (inl old, w1) →
  isStopped (seedState old) = false →
  (∀ q labels n i,
     EvDeployService q labels n i ∈ events_of (deployService labelsCheck args p img pState w) →
     IsAsleep labels = true ∧ IsStopped labels = false ∧ n = AppReplicas labels) ∧
  (∀ s,
     mergeState pState old = inl s →
     labelsCheck (mkServiceLabelsOpts (app args) p (replicas s)) = None →
     ∃ labels,
       events_of (deployService labelsCheck args p img pState w) =
         [EvCurrentLabels p; EvDeployService p labels (replicas s) img] ∧
       IsAsleep labels = true ∧ IsStopped labels = false ∧
       AppReplicas labels = replicas s).
Proof.
  intros Hsleep Hstop Hread Hseed.
  assert (∀ s, mergeState pState old = inl s → isStopped s = false) as Hkeep.
  { intros s Hmerge. destruct (Start pState || Restart pState) eqn:Hstart.
    - by apply (mergeState_started _ _ _ Hstart Hmerge).
    - apply orb_false_elim in Hstart as [Hs Hr].
      apply (mergeState_not_started _ _ _ Hs Hr) in Hmerge.
      apply applyIncrement_ok in Hmerge as (_ & -> & _). done. }
  split.
  - intros q labels n i Hin.
    apply deployService_deploy_event in Hin
      as (old' & w1' & s & Hread' & Hmerge & _ & _ & _ & -> & ->).
    rewrite Hread in Hread'. injection Hread' as <- <-.
    rewrite markLabels_real, markLabels_stopped, markLabels_asleep, markLabels_replicas.
    rewrite Hsleep, Hstop, (Hkeep _ Hmerge), orb_true_r. done.
  - intros s Hmerge Hcheck.
    rewrite (deployService_deploys _ _ _ _ _ _ _ _ Hread Hmerge Hcheck).
    eexists. unfold events_of. cbn [snd]. split; [|split; [|split]].
    + f_equal. f_equal. f_equal. by rewrite markLabels_real, Hstop, (Hkeep _ Hmerge).
    + by rewrite markLabels_asleep, Hsleep, !orb_true_r.
    + by rewrite markLabels_stopped, Hstop, (Hkeep _ Hmerge).
    + by rewrite markLabels_replicas.
Qed.

(** *** Claims about the specs and the precondition *)

(** C2 (amended). The new spec has exactly the processes the new image
    declares. When the caller supplies no override spec at all ([nil]),
    every declared process gets [Start: true]. When an override spec is
    supplied, every declared process gets its entry of that spec in full
    (all-or-nothing per process), and a process without an entry gets the
    zero state, as indexing the Go map yields it. *)
Theorem new_spec_default_and_override processes p :
  p ∈ dom processes →
  dom (buildNewSpec rangeKeys processes None) = dom processes ∧
  buildNewSpec rangeKeys processes None !! p = Some startState ∧
  (∀ u, dom (buildNewSpec rangeKeys processes (Some u)) = dom processes) ∧
  (∀ u st, u !! p = Some st →
           buildNewSpec rangeKeys processes (Some u) !! p = Some st) ∧
  (∀ u, u !! p = None →
        buildNewSpec rangeKeys processes (Some u) !! p = Some zeroState).
Proof.
  intros Hin. split; [apply dom_buildNewSpec|].
  split; [by rewrite buildNewSpec_lookup_dec, decide_True|].
  split; [intros u; apply dom_buildNewSpec|].
  split.
  - intros u st Hu. rewrite buildNewSpec_lookup_dec, decide_True by done.
    cbn. unfold specAt. by rewrite Hu.
  - intros u Hu. rewrite buildNewSpec_lookup_dec, decide_True by done.
    cbn. unfold specAt. by rewrite Hu.
Qed.

(** C7 (amended). A process whose previous labels mark it stopped, when
    deployed in a run whose override spec is supplied but has no entry
    for it, is deployed with [realReplicas = 0] and with the stopped
    marker on its labels, and the labels keep its desired replica count. *)
Theorem stopped_process_stays_stopped args p img processes u l w w1 :
  p ∈ dom processes →
  u !! p = None →
  CurrentLabels (app args) p w = (inl (Some l), w1) →
  IsStopped l = true →
  labelsCheck (mkServiceLabelsOpts (app args) p (AppReplicas l)) = None →
  ∃ labels,
    events_of (deployService labelsCheck args p img
                 (specAt (buildNewSpec rangeKeys processes (Some u)) p) w) =
      [EvCurrentLabels p; EvDeployService p labels 0 img] ∧
    IsStopped labels = true ∧
    AppReplicas labels = AppReplicas l.
Proof.
  intros Hin Hu Hread Hstopped Hcheck.
  assert (specAt (buildNewSpec rangeKeys processes (Some u)) p = zeroState) as ->.
  { unfold specAt. rewrite buildNewSpec_lookup_dec, decide_True by done.
    cbn. unfold specAt. by rewrite Hu. }
  assert (mergeState zeroState (Some l) = inl (seedState (Some l))) as Hmerge by done.
  rewrite (deployService_deploys _ _ _ _ _ _ _ _ Hread Hmerge Hcheck).
  eexists. unfold events_of. cbn [snd]. split; [|split].
  - f_equal. f_equal. f_equal. rewrite markLabels_real. cbn. by rewrite Hstopped.
  - rewrite markLabels_stopped. cbn. by rewrite Hstopped.
  - by rewrite markLabels_replicas.
Qed.

(** C4. When the new image declares zero processes, [RunServicePipeline]
    fails with the precondition error right after the three reads of the
    image store: no deploy, remove or label-read call reaches the
    backend, and the world is the one the reads left. *)
Theorem no_process_information a newImg updateSpec w curImg w1 cur w2 new w3 :
  AppCurrentImageName (GetName a) w = (inl curImg, w1) →
  GetImageCustomData curImg w1 = (inl cur, w2) →
  GetImageCustomData newImg w2 = (inl new, w3) →
  size (Processes new) = 0%nat →
  RunServicePipeline labelsCheck rangeKeys a newImg updateSpec w =
    (Some (ErrNoProcessInfo newImg), w3,
     [EvAppCurrentImageName (GetName a); EvGetImageCustomData curImg;
      EvGetImageCustomData newImg]) ∧
  filter (λ ev, is_backend_call ev = true)
         (events_of (RunServicePipeline labelsCheck rangeKeys a newImg updateSpec w)) = [].
Proof.
  intros Hcur Hdata Hnew Hsize.
  assert (RunServicePipeline labelsCheck rangeKeys a newImg updateSpec w =
    (Some (ErrNoProcessInfo newImg), w3,
     [EvAppCurrentImageName (GetName a); EvGetImageCustomData curImg;
      EvGetImageCustomData newImg])) as Hrun.
  { unfold RunServicePipeline, bind, callAppCurrentImageName, callGetImageCustomData, call.
    rewrite Hcur, Hdata, Hnew. by rewrite decide_True by done. }
  by rewrite Hrun.
Qed.

(** *** Stage C *)

Lemma removeLoop_cons args p rest w :
  removeLoop args (p :: rest) w =
    (tt,
     world_of (removeLoop args rest (RemoveService (app args) p w).2),
     EvRemoveService p ::
       match (RemoveService (app args) p w).1 with
       | Some e => [EvLog (LogIgnoredRemoveError (GetName (app args)) p e)]
       | None => []
       end ++ events_of (removeLoop args rest (RemoveService (app args) p w).2)).
Proof.
  cbn [removeLoop]. unfold bind, callRemoveService, call, logErrorf, ret.
  destruct (RemoveService (app args) p w) as [[e|] w1]; cbn [fst snd];
    by destruct (removeLoop args rest w1) as [[[] w2] t].
Qed.

Lemma removeLoop_app args l1 l2 w :
  removeLoop args (l1 ++ l2) w =
    (tt,
     world_of (removeLoop args l2 (world_of (removeLoop args l1 w))),
     events_of (removeLoop args l1 w) ++
       events_of (removeLoop args l2 (world_of (removeLoop args l1 w)))).
Proof.
  revert w. induction l1 as [|p l1 IH]; intros w.
  - cbn. by destruct (removeLoop args l2 w) as [[[] w2] t].
  - rewrite <- app_comm_cons, !removeLoop_cons, IH.
    unfold world_of, events_of. cbn [fst snd].
    by rewrite <- app_comm_cons, <- app_assoc.
Qed.

Lemma removeLoop_removals args names w :
  removals (events_of (removeLoop args names w)) = names.
Proof.
  revert w. induction names as [|p rest IH]; intros w; [done|].
  rewrite removeLoop_cons. unfold events_of at 1. cbn [snd].
  change (removals (?x :: ?l)) with (removals [x] ++ removals l).
  unfold removals at 2. rewrite omap_app. fold (removals (events_of
    (removeLoop args rest (RemoveService (app args) p w).2))).
  rewrite IH. by destruct (RemoveService (app args) p w).1.
Qed.

Lemma removeLoop_backend_calls args names w :
  filter (λ ev, is_backend_call ev = true) (events_of (removeLoop args names w)) =
    EvRemoveService <$> names.
Proof.
  revert w. induction names as [|p rest IH]; intros w; [done|].
  rewrite removeLoop_cons. unfold events_of at 1. cbn [snd].
  rewrite filter_cons_True by done. rewrite filter_app, IH.
  by destruct (RemoveService (app args) p w).1.
Qed.

(** C8. Stage C asks the backend to remove exactly the processes that are
    keys of the current spec and not keys of the new spec, each of them
    once, and makes no other backend call. A removal that fails is
    logged and the loop goes on; the action returns [nil, nil] whatever
    the removals did, so the pipeline ends with success and no
    compensation. *)
Theorem removeOldServices_removes_difference args previous completed w :
  let r := removeOldServices_Forward rangeKeys (mkFWContext args previous) w in
  let gone := Difference (FromMap (currentImageSpec args)) (FromMap (newImageSpec args)) in
  value_of r = inl ResNil ∧
  removals (events_of r) ≡ₚ elements gone ∧
  (∀ p, p ∈ removals (events_of r) ↔
        p ∈ dom (currentImageSpec args) ∧ p ∉ dom (newImageSpec args)) ∧
  filter (λ ev, is_backend_call ev = true) (events_of r) =
    EvRemoveService <$> removals (events_of r) ∧
  (∀ pre p post e w',
     rangeKeys gone = pre ++ p :: post →
     RemoveService (app args) p (world_of (removeLoop args pre w)) = (Some e, w') →
     ∃ t1 t2,
       events_of r =
         t1 ++ [EvRemoveService p;
                EvLog (LogIgnoredRemoveError (GetName (app args)) p e)] ++ t2) ∧
  pipelineForward [removeOldServices rangeKeys] completed args previous w =
    (None, world_of r, events_of r).
Proof.
  intros r gone.
  assert (r = (inl ResNil, world_of (removeLoop args (rangeKeys gone) w),
               events_of (removeLoop args (rangeKeys gone) w))) as Hr.
  { unfold r, removeOldServices_Forward, bind, ret. cbn [fwParams].
    fold gone. destruct (removeLoop args (rangeKeys gone) w) as [[[] w1] t].
    unfold events_of, world_of. cbn [fst snd]. by rewrite app_nil_r. }
  assert (removals (events_of r) = rangeKeys gone) as Hrem.
  { rewrite Hr. unfold events_of at 1. cbn [snd]. apply removeLoop_removals. }
  split; [by rewrite Hr|].
  split; [by rewrite Hrem|].
  split.
  { intros p. rewrite Hrem, elem_of_rangeKeys. unfold gone, Difference, FromMap.
    apply elem_of_difference. }
  split.
  { rewrite Hrem. rewrite Hr. unfold events_of at 1. cbn [snd].
    apply removeLoop_backend_calls. }
  split.
  { intros pre p post e w' Hsplit Hfail. rewrite Hr. unfold events_of at 1. cbn [snd].
    rewrite Hsplit, removeLoop_app. unfold events_of at 1. cbn [snd].
    rewrite removeLoop_cons. unfold events_of at 2. cbn [snd].
    rewrite Hfail. cbn [fst snd]. eexists _, _. reflexivity. }
  cbn [pipelineForward]. unfold bind, ret. cbn [Forward removeOldServices].
  fold r. rewrite Hr. unfold world_of, events_of. cbn [fst snd]. by rewrite app_nil_r.
Qed.

(** *** Compensation *)

Lemma deployService_events_about args p img pState w :
  Forall (about [p]) (events_of (deployService labelsCheck args p img pState w)).
Proof.
  assert (∀ ev, event_process ev = Some p → about [p] ev) as Habout.
  { intros ev Hev. exists p. split; [done|by left]. }
  destruct (deployService_cases args p img pState w)
    as [[Hev _]|(old & w1 & s & Hread & Hmerge & Hcheck)].
  - rewrite Hev. repeat constructor; by apply Habout.
  - rewrite (deployService_deploys _ _ _ _ _ _ _ _ Hread Hmerge Hcheck).
    unfold events_of. cbn [snd]. repeat constructor; by apply Habout.
Qed.

Lemma rollbackProcess_run args p w :
  rollbackProcess labelsCheck args p w =
    let r := match currentImageSpec args !! p with
             | Some state => deployService labelsCheck args p (currentImage args) state w
             | None => callRemoveService (app args) p w
             end in
    (tt, world_of r,
     events_of r ++
       match value_of r with
       | Some e => [EvLog (LogRollbackError (GetName (app args)) p e)]
       | None => []
       end).
Proof.
  unfold rollbackProcess, bind. cbv zeta.
  destruct (currentImageSpec args !! p) as [state|].
  - by destruct (deployService _ _ _ _ _ _) as [[[e|] w1] t].
  - by destruct (callRemoveService _ _ _) as [[[e|] w1] t].
Qed.

Lemma rollbackProcess_events_about args p w :
  Forall (about [p]) (events_of (rollbackProcess labelsCheck args p w)).
Proof.
  assert (∀ ev, event_process ev = Some p → about [p] ev) as Habout.
  { intros ev Hev. exists p. split; [done|by left]. }
  rewrite rollbackProcess_run. cbv zeta. unfold events_of at 1. cbn [snd].
  apply Forall_app. split.
  - destruct (currentImageSpec args !! p).
    + apply deployService_events_about.
    + unfold callRemoveService, call. destruct (RemoveService _ _ _).
      repeat constructor; by apply Habout.
  - destruct (value_of _); repeat constructor; by apply Habout.
Qed.

Lemma about_mono names names' ev :
  names ⊆ names' → about names ev → about names' ev.
Proof. intros Hsub (q & Hq & Hin). exists q. split; [done|by apply Hsub]. Qed.

Lemma rollbackAddedProcesses_compensates args names w :
  compensates labelsCheck args names w
    (world_of (rollbackAddedProcesses labelsCheck args names w))
    (events_of (rollbackAddedProcesses labelsCheck args names w)).
Proof.
  revert w. induction names as [|p names IH]; intros w; [constructor|].
  cbn [rollbackAddedProcesses]. unfold bind.
  destruct (rollbackProcess labelsCheck args p w) as [[[] w1] t1] eqn:Hp.
  specialize (IH w1).
  destruct (rollbackAddedProcesses labelsCheck args names w1) as [[[] w2] t2].
  unfold world_of, events_of in *. cbn [fst snd] in *. by econstructor.
Qed.

Lemma compensates_events_about args names w w' t :
  compensates labelsCheck args names w w' t → Forall (about names) t.
Proof.
  induction 1 as [|p names w w1 t1 w2 t2 Hp Hrest IH]; [constructor|].
  apply Forall_app. split.
  - pose proof (rollbackProcess_events_about args p w) as Hab.
    rewrite Hp in Hab. eapply Forall_impl; [exact Hab|].
    intros ev. apply about_mono. intros q ->%list_elem_of_singleton. by left.
  - eapply Forall_impl; [exact IH|]. intros ev. apply about_mono.
    intros q Hq. by right.
Qed.

Lemma deploys_events_about args names w w' t :
  deploys labelsCheck args names w w' t → Forall (about names) t.
Proof.
  induction 1 as [|p names w w1 t1 w2 t2 Hp Hrest IH]; [constructor|].
  apply Forall_app. split.
  - pose proof (deployService_events_about args p (newImage args)
                  (specAt (newImageSpec args) p) w) as Hab.
    rewrite Hp in Hab. eapply Forall_impl; [exact Hab|].
    intros ev. apply about_mono. intros q ->%list_elem_of_singleton. by left.
  - eapply Forall_impl; [exact IH|]. intros ev. apply about_mono.
    intros q Hq. by right.
Qed.

(** C3 (amended). Compensation of a process that the current image
    declares reads the labels of the process as they are at that moment
    and deploys the current image with exactly their replica count,
    stopped flag and asleep flag (scaled to zero when they are marked
    stopped); the restart count is the one of freshly built labels.
    Compensation of a process that only the new image declares asks the
    backend to remove it and neither reads its labels nor deploys it. *)
Theorem compensation_redeploys_or_removes args processes p w :
  currentImageSpec args = buildCurrentSpec rangeKeys processes →
  (p ∈ dom processes →
   ∀ l w1,
     CurrentLabels (app args) p w = (inl (Some l), w1) →
     labelsCheck (mkServiceLabelsOpts (app args) p (AppReplicas l)) = None →
     ∃ labels,
       filter (λ ev, is_backend_call ev = true)
              (events_of (rollbackProcess labelsCheck args p w)) =
         [EvCurrentLabels p;
          EvDeployService p labels (if IsStopped l then 0 else AppReplicas l)
                          (currentImage args)] ∧
       AppReplicas labels = AppReplicas l ∧
       IsStopped labels = IsStopped l ∧
       IsAsleep labels = IsAsleep l ∧
       Restarts labels = 0) ∧
  (p ∉ dom processes →
   filter (λ ev, is_backend_call ev = true)
          (events_of (rollbackProcess labelsCheck args p w)) = [EvRemoveService p]).
Proof.
  intros Hspec. split.
  - intros Hin l w1 Hread Hcheck.
    rewrite rollbackProcess_run, Hspec, buildCurrentSpec_lookup_dec, decide_True by done.
    cbv zeta. unfold events_of at 1. cbn [snd].
    assert (mergeState zeroState (Some l) = inl (seedState (Some l))) as Hmerge by done.
    rewrite (deployService_deploys _ _ _ _ _ _ _ _ Hread Hmerge Hcheck).
    unfold events_of, value_of. cbn [fst snd].
    eexists. split; [|split; [|split; [|split]]].
    + rewrite filter_app. rewrite !filter_cons_True by done. rewrite filter_nil.
      rewrite markLabels_real.
      replace (filter _ (match _ with Some _ => _ | None => _ end)) with (@nil Event)
        by (by destruct (DeployService _ _ _ _ _ _).1).
      rewrite app_nil_r. cbn [seedState isStopped replicas Stop zeroState].
      rewrite orb_false_r. reflexivity.
    + by rewrite markLabels_replicas.
    + rewrite markLabels_stopped. cbn. by rewrite orb_false_r.
    + rewrite markLabels_asleep. cbn. by rewrite orb_false_r.
    + by rewrite markLabels_restarts.
  - intros Hnin.
    rewrite rollbackProcess_run, Hspec, buildCurrentSpec_lookup_dec, decide_False by done.
    cbv zeta. unfold events_of at 1. cbn [snd].
    unfold callRemoveService, call.
    destruct (RemoveService (app args) p w) as [[e|] w1]; done.
Qed.

(** *** Stage A *)

Lemma toDeploy_perm args :
  toDeploy rangeKeys args ≡ₚ elements (dom (newImageSpec args)).
Proof. unfold toDeploy. by rewrite merge_sort_Permutation, rangeKeys_perm. Qed.

Lemma toDeploy_sorted args : StronglySorted String.le (toDeploy rangeKeys args).
Proof. apply StronglySorted_merge_sort; apply _. Qed.

Lemma toDeploy_NoDup args : NoDup (toDeploy rangeKeys args).
Proof. rewrite toDeploy_perm. apply NoDup_elements. Qed.

Lemma deployLoop_failure args P post acc w e w' t :
  deployService labelsCheck args P (newImage args) (specAt (newImageSpec args) P) w
    = (Some e, w', t) →
  deployLoop labelsCheck args (P :: post) acc w = ((acc, Some e), w', t).
Proof.
  intros HP. cbn [deployLoop]. unfold bind, ret. rewrite HP. by rewrite app_nil_r.
Qed.

Lemma deployLoop_deploys args pre rest acc w w1 t1 :
  deploys labelsCheck args pre w w1 t1 →
  deployLoop labelsCheck args (pre ++ rest) acc w =
    (value_of (deployLoop labelsCheck args rest (acc ++ pre) w1),
     world_of (deployLoop labelsCheck args rest (acc ++ pre) w1),
     t1 ++ events_of (deployLoop labelsCheck args rest (acc ++ pre) w1)).
Proof.
  intros Hpre. revert acc.
  induction Hpre as [w|p names w w1 t1 w2 t2 Hp Hrest IH]; intros acc.
  - rewrite app_nil_r. cbn. apply run_eta.
  - rewrite <- app_comm_cons. cbn [deployLoop]. unfold bind. rewrite Hp.
    rewrite IH. unfold value_of, world_of, events_of. cbn [fst snd].
    by rewrite <- !app_assoc.
Qed.

(** C1. Stage A deploys the processes of the new spec one at a time in
    lexicographic order of their names. When every deploy succeeds the
    result is that ordered list. When the deploy of [P] fails with error
    [e] after the deploys of the prefix [pre] succeeded, nothing is
    deployed after [P]: the run continues with the compensation of
    exactly the members of [pre], in deployment order, and returns [e];
    no event of the run is about a process after [P]. Compensating one
    process returns nothing: an error of its deploy or remove call only
    adds an entry to the log. *)
Theorem updateServices_stops_and_compensates args previous w :
  let order := toDeploy rangeKeys args in
  let forward := updateServices_Forward labelsCheck rangeKeys (mkFWContext args previous) in
  (StronglySorted String.le order ∧ NoDup order ∧
   ∀ p, p ∈ order ↔ p ∈ dom (newImageSpec args)) ∧
  (∀ w1 t1,
     deploys labelsCheck args order w w1 t1 →
     forward w = (inl (ResStrings order), w1, t1)) ∧
  (∀ pre P post w1 t1 e w2 t2,
     order = pre ++ P :: post →
     deploys labelsCheck args pre w w1 t1 →
     deployService labelsCheck args P (newImage args) (specAt (newImageSpec args) P) w1
       = (Some e, w2, t2) →
     ∃ w3 t3,
       compensates labelsCheck args pre w2 w3 t3 ∧
       forward w = (inr e, w3, t1 ++ t2 ++ t3) ∧
       Forall (about pre) t1 ∧ Forall (about [P]) t2 ∧ Forall (about pre) t3 ∧
       (∀ q, q ∈ post → Forall (λ ev, ¬ about [q] ev) (t1 ++ t2 ++ t3))) ∧
  (∀ p w',
     let r := match currentImageSpec args !! p with
              | Some state => deployService labelsCheck args p (currentImage args) state w'
              | None => callRemoveService (app args) p w'
              end in
     rollbackProcess labelsCheck args p w' =
       (tt, world_of r,
        events_of r ++
          match value_of r with
          | Some e' => [EvLog (LogRollbackError (GetName (app args)) p e')]
          | None => []
          end)).
Proof.
  intros order forward. split; [|split; [|split]]; [| | |apply rollbackProcess_run].
  - split; [apply toDeploy_sorted|]. split; [apply toDeploy_NoDup|].
    intros p. unfold order. rewrite toDeploy_perm. apply elem_of_elements.
  - intros w1 t1 Hall. unfold forward, updateServices_Forward, bind. cbn [fwParams].
    fold order. rewrite <- (app_nil_r order) at 1.
    rewrite (deployLoop_deploys _ _ [] [] _ _ _ Hall). cbn.
    by rewrite !app_nil_r.
  - intros pre P post w1 t1 e w2 t2 Horder Hpre HP.
    exists (world_of (rollbackAddedProcesses labelsCheck args pre w2)),
           (events_of (rollbackAddedProcesses labelsCheck args pre w2)).
    pose proof (rollbackAddedProcesses_compensates args pre w2) as Hcomp.
    pose proof (deploys_events_about _ _ _ _ _ Hpre) as Habout1.
    pose proof (deployService_events_about args P (newImage args)
                  (specAt (newImageSpec args) P) w1) as Habout2.
    rewrite HP in Habout2. unfold events_of at 1 in Habout2. cbn [snd] in Habout2.
    pose proof (compensates_events_about _ _ _ _ _ Hcomp) as Habout3.
    split; [exact Hcomp|]. split; [|split; [done|split; [done|split; [done|]]]].
    + unfold forward, updateServices_Forward, bind. cbn [fwParams].
      fold order. rewrite Horder.
      rewrite (deployLoop_deploys _ _ (P :: post) [] _ _ _ Hpre).
      rewrite (deployLoop_failure _ _ _ _ _ _ _ _ HP).
      unfold value_of, world_of, events_of. cbn [fst snd]. rewrite app_nil_l.
      destruct (rollbackAddedProcesses labelsCheck args pre w2) as [[[] w3] t3].
      cbn [fst snd]. unfold ret. by rewrite app_nil_r, <- app_assoc.
    + intros q Hq.
      pose proof (toDeploy_NoDup args) as Hnodup. fold order in Hnodup.
      rewrite Horder in Hnodup.
      apply NoDup_app in Hnodup as (_ & Hdisj & HPpost).
      apply NoDup_cons in HPpost as [HPpost _].
      assert (q ∉ pre) as Hqpre.
      { intros Hin. apply (Hdisj q Hin). by right. }
      assert (q ≠ P) as HqP by (by intros ->).
      assert (∀ names, q ∉ names → ∀ ev, about names ev → ¬ about [q] ev) as Hsep.
      { intros names Hnin ev (q1 & Hq1 & Hin1) (q2 & Hq2 & Hin2).
        apply list_elem_of_singleton in Hin2. congruence. }
      rewrite !Forall_app. split; [|split].
      * eapply Forall_impl; [exact Habout1|]. by apply Hsep.
      * eapply Forall_impl; [exact Habout2|]. apply Hsep.
        by intros ?%list_elem_of_singleton.
      * eapply Forall_impl; [exact Habout3|]. by apply Hsep.
Qed.

End Properties.

(** ** Further properties of the pipeline code *)

Section MoreProperties.

Context {W : Type} `{!ServiceManager W} `{!ImageStore W}.
Variable labelsCheck : ServiceLabelsOpts → option error.
Variable rangeKeys : gset string → list string.
Hypothesis rangeKeys_perm : ∀ s, rangeKeys s ≡ₚ elements s.

(** The deploy step is the label read followed, when there is a plan, by
    the deploy call of that plan. *)
Lemma deployService_by_plan (args : pipelineArgs) p img pState (w : W) :
  deployService labelsCheck args p img pState w =
    match CurrentLabels (app args) p w with
    | (inr err, w1) => (Some err, w1, [EvCurrentLabels p])
    | (inl old, w1) =>
        match deployPlan labelsCheck (app args) p pState old with
        | inr err => (Some err, w1, [EvCurrentLabels p])
        | inl (labels, n) =>
            ((DeployService (app args) p labels n img w1).1,
             (DeployService (app args) p labels n img w1).2,
             [EvCurrentLabels p; EvDeployService p labels n img])
        end
    end.
Proof.
  destruct (CurrentLabels (app args) p w) as [[old|err] w1] eqn:Hread.
  - unfold deployPlan. destruct (mergeState pState old) as [s|err] eqn:Hmerge.
    + unfold ServiceLabels.
      destruct (labelsCheck (mkServiceLabelsOpts (app args) p (replicas s)))
        as [err|] eqn:Hcheck.
      * eapply deployService_labels_error; eauto.
      * rewrite (deployService_deploys _ _ _ _ _ _ _ _ _ Hread Hmerge Hcheck).
        cbn [GetName optApp optProcess optReplicas].
        by destruct (markLabels _ _ _) as [labels n].
    + eapply deployService_merge_error; eauto.
  - by apply deployService_read_error.
Qed.

(** X1. Whatever the backend answers, the deploy step reads the labels of
    its process exactly once and first, asks for at most one deploy (of
    that process, with the image it was given), and never asks for a
    removal. It returns [nil] only when the deploy call was made. *)
Theorem deployService_call_discipline (args : pipelineArgs) p img pState (w : W) :
  let r := deployService labelsCheck args p img pState w in
  (events_of r = [EvCurrentLabels p] ∧ is_Some (value_of r) ∨
   ∃ labels n, events_of r = [EvCurrentLabels p; EvDeployService p labels n img]) ∧
  removals (events_of r) = [] ∧
  (value_of r = None →
   ∃ labels n, events_of r = [EvCurrentLabels p; EvDeployService p labels n img]).
Proof.
  cbv zeta. rewrite deployService_by_plan.
  destruct (CurrentLabels (app args) p w) as [[old|err] w1].
  - destruct (deployPlan labelsCheck (app args) p pState old) as [[labels n]|err].
    + unfold events_of, value_of. cbn [fst snd]. split; [right; eauto|]. split; [done|eauto].
    + unfold events_of, value_of. cbn [fst snd]. split; [left; eauto|]. split; done.
  - unfold events_of, value_of. cbn [fst snd]. split; [left; eauto|]. split; done.
Qed.


(** X3. A deploy that asks for [Restart] records a restart count one above
    the count of the old labels (one above zero for a process without
    labels); at the largest [int] the Go increment wraps to the smallest. *)
Theorem restart_increments_counter (args : pipelineArgs) p img pState (w : W)
    old w1 q labels n i :
  Restart pState = true →
  CurrentLabels (app args) p w = (inl old, w1) →
  EvDeployService q labels n i ∈ events_of (deployService labelsCheck args p img pState w) →
  (int_min <= restartCount (seedState old) < int_max →
   Restarts labels = restartCount (seedState old) + 1) ∧
  (restartCount (seedState old) = int_max → Restarts labels = int_min).
Proof.
  intros Hrestart Hread Hin.
  apply deployService_deploy_event in Hin
    as (old' & w1' & s & Hread' & Hmerge & _ & _ & _ & -> & _).
  rewrite Hread in Hread'. injection Hread' as <- <-.
  rewrite markLabels_restarts, Hrestart.
  assert (restartCount s = restartCount (seedState old)) as ->.
  { unfold mergeState in Hmerge.
    destruct (applyIncrement pState (seedState old)) as [s1|] eqn:Hinc; [|done].
    injection Hmerge as <-. apply applyIncrement_ok in Hinc as (<- & _).
    unfold applyStart. by destruct (Start pState || Restart pState). }
  split.
  - intros Hrange. apply int_wrap_id. unfold is_int, int_min, int_max in *. lia.
  - intros ->. reflexivity.
Qed.

(** X4. Without an increment and without a restart the plan of the deploy
    step is idempotent: planning again from the labels it produced gives
    the same labels and the same scale. *)
Theorem deployPlan_idempotent a p pState old labels n :
  Increment pState = 0 →
  Restart pState = false →
  deployPlan labelsCheck a p pState old = inl (labels, n) →
  deployPlan labelsCheck a p pState (Some labels) = inl (labels, n).
Proof.
  intros Hinc Hrestart. unfold deployPlan, mergeState.
  rewrite !applyIncrement_zero by done.
  unfold ServiceLabels, applyStart, markLabels. rewrite Hrestart, orb_false_r.
  cbn [replicas restartCount isStopped isAsleep optApp optProcess optReplicas].
  destruct (Start pState) eqn:Hstart.
  - cbn [orb replicas isStopped isAsleep].
    destruct (decide (replicas (seedState old) = 0)) as [Hz|Hnz];
      (destruct (labelsCheck _) eqn:Hcheck; [done|]);
      destruct (Stop pState), (Sleep pState); cbn; intros [= <- <-]; cbn;
      rewrite ?decide_False by done; rewrite Hcheck; reflexivity.
  - cbn [orb].
    destruct (labelsCheck _) eqn:Hcheck; [done|].
    destruct (isStopped (seedState old)), (Stop pState),
             (isAsleep (seedState old)), (Sleep pState);
      cbn; intros [= <- <-]; cbn; rewrite Hcheck; reflexivity.
Qed.

(** X5. For a replica count and an increment that are Go [int]s, the
    merge fails with the invalid-scale error exactly when the sum is
    negative or exceeds the largest [int] (the wrapped sum is then
    negative); otherwise the merged count is the sum, or 1 when the sum is
    zero and a start or restart is requested. A sum of exactly zero is
    accepted. *)
Theorem invalid_scale_iff pState old :
  0 <= replicas (seedState old) <= int_max →
  is_int (Increment pState) →
  let sum := replicas (seedState old) + Increment pState in
  (mergeState pState old = inr ErrNegativeUnits ↔ sum < 0 ∨ int_max < sum) ∧
  (0 <= sum <= int_max →
   ∃ s, mergeState pState old = inl s ∧
        replicas s =
          if (Start pState || Restart pState) && bool_decide (sum = 0) then 1 else sum).
Proof.
  intros Hr Hinc sum.
  assert (sum < 0 ∨ int_max < sum → mergeState pState old = inr ErrNegativeUnits) as Hbad.
  { intros Hsum. unfold mergeState, applyIncrement.
    rewrite decide_True by (unfold sum in Hsum; lia).
    fold sum. rewrite decide_True; [done|].
    unfold int_wrap, is_int, int_min, int_max in *.
    destruct Hsum as [Hneg|Hover].
    - rewrite Z.mod_small by lia. lia.
    - replace (sum + 2 ^ 63) with ((sum - 2 ^ 63) + 1 * 2 ^ 64) by lia.
      rewrite Z.mod_add by lia. rewrite Z.mod_small by lia. lia. }
  assert (0 <= sum <= int_max →
          ∃ s, mergeState pState old = inl s ∧
               replicas s =
                 if (Start pState || Restart pState) && bool_decide (sum = 0)
                 then 1 else sum) as Hgood.
  { intros Hsum. unfold mergeState, applyIncrement.
    destruct (decide (Increment pState ≠ 0)) as [Hnz|Hz].
    - fold sum. rewrite int_wrap_id by (unfold is_int, int_min, int_max in *; lia).
      rewrite decide_False by lia. eexists. split; [done|].
      unfold applyStart. destruct (Start pState || Restart pState); cbn.
      + destruct (decide (sum = 0)).
        * by rewrite bool_decide_eq_true_2.
        * by rewrite bool_decide_eq_false_2.
      + done.
    - assert (sum = replicas (seedState old)) as Hsame by (unfold sum; lia).
      eexists. split; [done|].
      unfold applyStart. destruct (Start pState || Restart pState); cbn.
      + rewrite Hsame. destruct (decide (replicas (seedState old) = 0)).
        * by rewrite bool_decide_eq_true_2.
        * by rewrite bool_decide_eq_false_2.
      + done. }
  split; [|exact Hgood]. split; [|exact Hbad].
  intros Herr. destruct (decide (sum < 0)) as [|Hge]; [by left|].
  destruct (decide (int_max < sum)) as [|Hle]; [by right|].
  destruct Hgood as (s & Hs & _); [lia|]. congruence.
Qed.

(** Compensating one process starts with a backend call for it: the
    label read when the current spec has the process, the removal when
    it has not. *)
Lemma rollbackProcess_first_call (args : pipelineArgs) p (w : W) :
  ∃ rest,
    events_of (rollbackProcess labelsCheck args p w) =
      (match currentImageSpec args !! p with
    | Some _ => EvCurrentLabels p
    | None => EvRemoveService p
    end) :: rest.
Proof.
  rewrite rollbackProcess_run. cbv zeta. unfold events_of at 1. cbn [snd].
  destruct (currentImageSpec args !! p) as [state|].
  - rewrite deployService_by_plan.
    destruct (CurrentLabels (app args) p w) as [[old|err] w1].
    + destruct (deployPlan _ _ _ _ _) as [[labels n]|err];
        unfold events_of; cbn [snd]; eexists; reflexivity.
    + unfold events_of; cbn [snd]. eexists; reflexivity.
  - unfold callRemoveService, call. destruct (RemoveService _ _ _) as [e w1].
    unfold events_of; cbn [snd]. eexists; reflexivity.
Qed.

(** X6. Compensation goes through the whole list whatever fails on the
    way: every listed process gets its backend call (the label read when
    the current spec has it, the removal when it has not), no event is
    about a process outside the list, and compensating [l1 ++ l2] is
    compensating [l1] and then [l2]. *)
Theorem rollbackAddedProcesses_visits_all (args : pipelineArgs) processes (w : W) :
  (∀ p, p ∈ processes →
        (match currentImageSpec args !! p with
       | Some _ => EvCurrentLabels p
       | None => EvRemoveService p
       end)
          ∈ events_of (rollbackAddedProcesses labelsCheck args processes w)) ∧
  Forall (about processes) (events_of (rollbackAddedProcesses labelsCheck args processes w)) ∧
  (∀ l1 l2,
     processes = l1 ++ l2 →
     events_of (rollbackAddedProcesses labelsCheck args processes w) =
       events_of (rollbackAddedProcesses labelsCheck args l1 w) ++
       events_of (rollbackAddedProcesses labelsCheck args l2
                    (world_of (rollbackAddedProcesses labelsCheck args l1 w)))).
Proof.
  pose proof (rollbackAddedProcesses_compensates labelsCheck args) as Hcomp.
  split; [|split].
  - specialize (Hcomp processes w).
    induction Hcomp as [|q names w0 w1 t1 w2 t2 Hq Hrest IH]; intros p Hin.
    + by apply not_elem_of_nil in Hin.
    + apply elem_of_app. apply elem_of_cons in Hin as [->|Hin].
      * left. destruct (rollbackProcess_first_call args q w0) as [rest Hfirst].
        rewrite Hq in Hfirst. unfold events_of in Hfirst. cbn [snd] in Hfirst.
        rewrite Hfirst. by left.
      * right. by apply IH.
  - eapply compensates_events_about. apply Hcomp.
  - intros l1 l2 ->. clear Hcomp. revert w. induction l1 as [|q l1 IH]; intros w.
    + done.
    + rewrite <- app_comm_cons. cbn [rollbackAddedProcesses]. unfold bind.
      destruct (rollbackProcess labelsCheck args q w) as [[[] w1] t1].
      specialize (IH w1).
      destruct (rollbackAddedProcesses labelsCheck args (l1 ++ l2) w1) as [[[] w2] t2].
      destruct (rollbackAddedProcesses labelsCheck args l1 w1) as [[[] w3] t3].
      unfold events_of, world_of in *. cbn [fst snd] in *.
      rewrite IH. by rewrite app_assoc.
Qed.

Lemma deployLoop_result (args : pipelineArgs) names acc (w : W) :
  let r := deployLoop labelsCheck args names acc w in
  match (value_of r).2 with
  | None =>
      (value_of r).1 = acc ++ names ∧
      deploys labelsCheck args names w (world_of r) (events_of r)
  | Some e =>
      ∃ pre P post w1 t1 t2,
        names = pre ++ P :: post ∧ (value_of r).1 = acc ++ pre ∧
        deploys labelsCheck args pre w w1 t1 ∧
        deployService labelsCheck args P (newImage args) (specAt (newImageSpec args) P) w1
          = (Some e, world_of r, t2) ∧
        events_of r = t1 ++ t2
  end.
Proof.
  cbv zeta. revert acc w. induction names as [|p names IH]; intros acc w.
  - cbn. rewrite app_nil_r. split; [done|constructor].
  - cbn [deployLoop]. unfold bind.
    destruct (deployService labelsCheck args p (newImage args)
                (specAt (newImageSpec args) p) w) as [[[e|] w1] t1] eqn:Hp.
    + unfold ret, value_of, world_of, events_of. cbn [fst snd].
      exists [], p, names, w, [], t1. rewrite !app_nil_r.
      split; [done|]. split; [done|]. split; [constructor|]. split; [done|done].
    + specialize (IH (acc ++ [p]) w1).
      destruct (deployLoop labelsCheck args names (acc ++ [p]) w1) as [[[d [e|]] w2] t2].
      * unfold value_of, world_of, events_of in *. cbn [fst snd] in *.
        destruct IH as (pre & P & post & w3 & t3 & t4 & -> & -> & Hpre & HP & ->).
        exists (p :: pre), P, post, w3, (t1 ++ t3), t4.
        split; [done|]. split; [by rewrite <- app_assoc|].
        split; [by econstructor|]. split; [done|by rewrite app_assoc].
      * unfold value_of, world_of, events_of in *. cbn [fst snd] in *.
        destruct IH as [-> Hrest]. split; [by rewrite <- app_assoc|].
        by econstructor.
Qed.

(** X7. When the forward half of [updateServices] succeeds, every process
    of the new spec was deployed, one after the other in sorted order, and
    the result is that list; the backward half, given this result,
    compensates exactly those processes in that order. *)
Theorem updateServices_Backward_undoes_Forward (args : pipelineArgs) previous (w : W)
    res w1 t :
  updateServices_Forward labelsCheck rangeKeys (mkFWContext args previous) w = (inl res, w1, t) →
  res = ResStrings (toDeploy rangeKeys args) ∧
  deploys labelsCheck args (toDeploy rangeKeys args) w w1 t ∧
  ∀ w2, updateServices_Backward labelsCheck (mkBWContext args res) w2 =
          rollbackAddedProcesses labelsCheck args (toDeploy rangeKeys args) w2.
Proof.
  unfold updateServices_Forward, bind. cbn [fwParams].
  pose proof (deployLoop_result args (toDeploy rangeKeys args) [] w) as Hloop.
  cbv zeta in Hloop.
  destruct (deployLoop labelsCheck args (toDeploy rangeKeys args) [] w)
    as [[[d [e|]] w0] t0].
  - cbn [snd fst]. destruct (rollbackAddedProcesses _ _ _ _) as [[[] ?] ?]. done.
  - unfold value_of, world_of, events_of in Hloop. cbn [fst snd] in *.
    destruct Hloop as [-> Hall]. unfold ret. rewrite app_nil_r.
    intros [= <- <- <-]. split; [done|]. split; [done|]. done.
Qed.

(** X8. An error of one of the three reads of the image store ends
    [RunServicePipeline] at once: the error is returned as it is, no other
    call follows it, and the backend is not called at all. *)
Theorem RunServicePipeline_read_errors (a : App) newImg updateSpec (w : W) :
  let outcome := RunServicePipeline labelsCheck rangeKeys a newImg updateSpec w in
  (∀ err w1,
     AppCurrentImageName (GetName a) w = (inr err, w1) →
     outcome = (Some err, w1, [EvAppCurrentImageName (GetName a)])) ∧
  (∀ curImg w1 err w2,
     AppCurrentImageName (GetName a) w = (inl curImg, w1) →
     GetImageCustomData curImg w1 = (inr err, w2) →
     outcome = (Some err, w2, [EvAppCurrentImageName (GetName a); EvGetImageCustomData curImg])) ∧
  (∀ curImg w1 cur w2 err w3,
     AppCurrentImageName (GetName a) w = (inl curImg, w1) →
     GetImageCustomData curImg w1 = (inl cur, w2) →
     GetImageCustomData newImg w2 = (inr err, w3) →
     outcome = (Some err, w3,
            [EvAppCurrentImageName (GetName a); EvGetImageCustomData curImg;
             EvGetImageCustomData newImg])).
Proof.
  cbv zeta. split; [|split].
  - intros err w1 Hcur.
    unfold RunServicePipeline, bind, callAppCurrentImageName, call. by rewrite Hcur.
  - intros curImg w1 err w2 Hcur Hdata.
    unfold RunServicePipeline, bind, callAppCurrentImageName, callGetImageCustomData, call.
    by rewrite Hcur, Hdata.
  - intros curImg w1 cur w2 err w3 Hcur Hdata Hnew.
    unfold RunServicePipeline, bind, callAppCurrentImageName, callGetImageCustomData, call.
    by rewrite Hcur, Hdata, Hnew.
Qed.

(** X9. The deploy order does not depend on the order in which Go ranges
    over the map: for any two visiting orders the sorted list is the same,
    and so is everything the forward half of [updateServices] does. *)
Theorem toDeploy_order_independent rangeKeys' (args : pipelineArgs) previous (w : W) :
  (∀ s, rangeKeys' s ≡ₚ elements s) →
  toDeploy rangeKeys args = toDeploy rangeKeys' args ∧
  updateServices_Forward labelsCheck rangeKeys (mkFWContext args previous) w =
    updateServices_Forward labelsCheck rangeKeys' (mkFWContext args previous) w.
Proof.
  intros Hperm'.
  assert (toDeploy rangeKeys args = toDeploy rangeKeys' args) as Heq.
  { apply (Sorted_unique String.le).
    - apply Sorted_merge_sort; apply _.
    - apply Sorted_merge_sort; apply _.
    - unfold toDeploy. by rewrite !merge_sort_Permutation, rangeKeys_perm, Hperm'. }
  split; [exact Heq|]. unfold updateServices_Forward. cbn [fwParams]. by rewrite Heq.
Qed.

(** X10. The two specs built by [RunServicePipeline] do not depend on the
    visiting order either: the current spec maps every process of the
    current image to the zero state, and the new spec maps every process
    of the new image to its requested state. *)
Theorem specs_independent_of_range_order processes updateSpec :
  buildCurrentSpec rangeKeys processes = (λ _, zeroState) <$> processes ∧
  buildNewSpec rangeKeys processes updateSpec =
    map_imap (λ p _, Some (requestedState updateSpec p)) processes.
Proof.
  split; apply map_eq; intros p.
  - rewrite (buildCurrentSpec_lookup_dec rangeKeys rangeKeys_perm), lookup_fmap.
    destruct (decide (p ∈ dom processes)) as [Hin|Hnin].
    + apply elem_of_dom in Hin as [v ->]. done.
    + apply not_elem_of_dom in Hnin as ->. done.
  - rewrite (buildNewSpec_lookup_dec rangeKeys rangeKeys_perm), map_lookup_imap.
    destruct (decide (p ∈ dom processes)) as [Hin|Hnin].
    + apply elem_of_dom in Hin as [v ->]. done.
    + apply not_elem_of_dom in Hnin as ->. done.
Qed.

(** Once the three reads succeed and the new image declares a process,
    the run is the pipeline executed on the arguments built from them. *)
Lemma RunServicePipeline_executes (a : App) newImg updateSpec (w : W)
    curImg w1 cur w2 new w3 :
  AppCurrentImageName (GetName a) w = (inl curImg, w1) →
  GetImageCustomData curImg w1 = (inl cur, w2) →
  GetImageCustomData newImg w2 = (inl new, w3) →
  size (Processes new) ≠ 0%nat →
  let args := mkPipelineArgs a newImg (buildNewSpec rangeKeys (Processes new) updateSpec)
                             curImg (buildCurrentSpec rangeKeys (Processes cur)) in
  let exec := Execute [updateServices labelsCheck rangeKeys; updateImageInDB;
                       removeOldServices rangeKeys] args w3 in
  RunServicePipeline labelsCheck rangeKeys a newImg updateSpec w =
    (value_of exec, world_of exec,
     [EvAppCurrentImageName (GetName a); EvGetImageCustomData curImg;
      EvGetImageCustomData newImg] ++ events_of exec).
Proof.
  intros Hcur Hdata Hnew Hsize. cbv zeta.
  unfold RunServicePipeline, bind, callAppCurrentImageName, callGetImageCustomData, call.
  rewrite Hcur, Hdata, Hnew. rewrite decide_False by done.
  by destruct (Execute _ _ _) as [[v w4] t].
Qed.

Lemma updateServices_Forward_success (args : pipelineArgs) previous (w : W) w1 t1 :
  deploys labelsCheck args (toDeploy rangeKeys args) w w1 t1 →
  updateServices_Forward labelsCheck rangeKeys (mkFWContext args previous) w =
    (inl (ResStrings (toDeploy rangeKeys args)), w1, t1).
Proof.
  intros Hall. unfold updateServices_Forward, bind. cbn [fwParams].
  rewrite <- (app_nil_r (toDeploy rangeKeys args)) at 1.
  rewrite (deployLoop_deploys _ _ _ [] [] _ _ _ Hall). cbn.
  by rewrite !app_nil_r.
Qed.

Lemma pipelineForward_step_ok (a : Action) rest completed params previous (w : W)
    res w1 t1 :
  Forward a (mkFWContext params previous) w = (inl res, w1, t1) →
  pipelineForward (a :: rest) completed params previous w =
    (value_of (pipelineForward rest ((a, res) :: completed) params res w1),
     world_of (pipelineForward rest ((a, res) :: completed) params res w1),
     t1 ++ events_of (pipelineForward rest ((a, res) :: completed) params res w1)).
Proof.
  intros Hfw. cbn [pipelineForward]. unfold bind. rewrite Hfw.
  by destruct (pipelineForward rest _ params res w1) as [[v w2] t2].
Qed.

Lemma pipelineForward_step_error (a : Action) rest completed params previous (w : W)
    err w1 t1 :
  Forward a (mkFWContext params previous) w = (inr err, w1, t1) →
  pipelineForward (a :: rest) completed params previous w =
    (Some err, world_of (pipelineRollback completed params w1),
     t1 ++ events_of (pipelineRollback completed params w1)).
Proof.
  intros Hfw. cbn [pipelineForward]. unfold bind. rewrite Hfw.
  destruct (pipelineRollback completed params w1) as [[[] w2] t2].
  unfold ret, world_of, events_of. cbn [fst snd]. by rewrite app_nil_r.
Qed.

Lemma updateImageInDB_Forward_run (ctx : FWContext) (w : W) :
  updateImageInDB_Forward ctx w =
    (match (AppendAppImageName (GetName (app (fwParams ctx))) (newImage (fwParams ctx)) w).1 with
     | Some e => inr (ErrWithStack e)
     | None => inl (Previous ctx)
     end,
     (AppendAppImageName (GetName (app (fwParams ctx))) (newImage (fwParams ctx)) w).2,
     [EvAppendAppImageName (GetName (app (fwParams ctx))) (newImage (fwParams ctx))]).
Proof.
  unfold updateImageInDB_Forward, bind, callAppendAppImageName, call.
  by destruct (AppendAppImageName _ _ w) as [[e|] w1].
Qed.

Lemma removeOldServices_Forward_run (ctx : FWContext) (w : W) :
  let gone := rangeKeys (Difference (FromMap (currentImageSpec (fwParams ctx)))
                                    (FromMap (newImageSpec (fwParams ctx)))) in
  removeOldServices_Forward rangeKeys ctx w =
    (inl ResNil, world_of (removeLoop (fwParams ctx) gone w),
     events_of (removeLoop (fwParams ctx) gone w)).
Proof.
  cbv zeta. unfold removeOldServices_Forward, bind, ret.
  destruct (removeLoop _ _ w) as [[[] w1] t].
  unfold world_of, events_of. cbn [fst snd]. by rewrite app_nil_r.
Qed.

(** X11. A run whose deploys all succeed and whose image is recorded ends
    with [nil]: after the three reads come the deploys in sorted order, the
    append of the new image, and the removal of the processes that only the
    current image declares; the outcome of those removals does not matter.
    (The pipeline driver of package [action] is the one described by the
    specification.) *)
Theorem RunServicePipeline_success (a : App) newImg updateSpec (w : W)
    curImg w1 cur w2 new w3 wA tA wB :
  AppCurrentImageName (GetName a) w = (inl curImg, w1) →
  GetImageCustomData curImg w1 = (inl cur, w2) →
  GetImageCustomData newImg w2 = (inl new, w3) →
  size (Processes new) ≠ 0%nat →
  let args := mkPipelineArgs a newImg (buildNewSpec rangeKeys (Processes new) updateSpec)
                             curImg (buildCurrentSpec rangeKeys (Processes cur)) in
  deploys labelsCheck args (toDeploy rangeKeys args) w3 wA tA →
  AppendAppImageName (GetName a) newImg wA = (None, wB) →
  let gone := rangeKeys (dom (Processes cur) ∖ dom (Processes new)) in
  RunServicePipeline labelsCheck rangeKeys a newImg updateSpec w =
    (None, world_of (removeLoop args gone wB),
     [EvAppCurrentImageName (GetName a); EvGetImageCustomData curImg;
      EvGetImageCustomData newImg] ++
     tA ++ [EvAppendAppImageName (GetName a) newImg] ++
     events_of (removeLoop args gone wB)).
Proof.
  intros Hcur Hdata Hnew Hsize args Hdeploys Happend gone.
  rewrite (RunServicePipeline_executes _ _ _ _ _ _ _ _ _ _ Hcur Hdata Hnew Hsize).
  fold args.
  pose proof (updateServices_Forward_success args ResNil _ _ _ Hdeploys) as Hok.
  assert (dom (buildCurrentSpec rangeKeys (Processes cur)) = dom (Processes cur)) as Hdomcur.
  { apply set_eq. intros p.
    rewrite elem_of_dom, (buildCurrentSpec_lookup_dec rangeKeys rangeKeys_perm).
    case_decide; [|by split; [intros [? ?]|]]. split; eauto. }
  assert (gone = rangeKeys (Difference (FromMap (currentImageSpec args))
                                       (FromMap (newImageSpec args)))) as Hgone.
  { unfold gone, Difference, FromMap, args. cbn [currentImageSpec newImageSpec].
    by rewrite (dom_buildNewSpec rangeKeys rangeKeys_perm), Hdomcur. }
  assert (AppendAppImageName (GetName (app args)) (newImage args) wA = (None, wB))
    as Happend' by exact Happend.
  assert (GetName (app args) = GetName a) as Hname by reflexivity.
  assert (newImage args = newImg) as Himg by reflexivity.
  clearbody args gone.
  unfold Execute.
  rewrite (pipelineForward_step_ok (updateServices labelsCheck rangeKeys) _ _ _ _ _ _ _ _ Hok).
  pose proof (updateImageInDB_Forward_run
                (mkFWContext args (ResStrings (toDeploy rangeKeys args))) wA) as Hdb.
  cbn [fwParams Previous] in Hdb. rewrite Happend' in Hdb. cbn [fst snd] in Hdb.
  rewrite (pipelineForward_step_ok updateImageInDB _ _ _ _ _ _ _ _ Hdb).
  pose proof (removeOldServices_Forward_run
                (mkFWContext args (ResStrings (toDeploy rangeKeys args))) wB) as Hrm.
  cbv zeta in Hrm. cbn [fwParams] in Hrm. rewrite <- Hgone in Hrm.
  rewrite (pipelineForward_step_ok (removeOldServices rangeKeys) _ _ _ _ _ _ _ _ Hrm).
  cbn [pipelineForward]. unfold ret, value_of, world_of, events_of. cbn [fst snd].
  rewrite Hname, Himg. by rewrite !app_nil_r.
Qed.

(** X12. When the deploys all succeed and the append of the new image
    fails, the run returns that error wrapped by [errors.WithStack],
    compensates every process of the new spec in sorted order, and never
    reaches the removal of the old services. (The pipeline driver of package
    [action] is the one described by the specification.) *)
Theorem RunServicePipeline_image_append_fails (a : App) newImg updateSpec (w : W)
    curImg w1 cur w2 new w3 wA tA err wB :
  AppCurrentImageName (GetName a) w = (inl curImg, w1) →
  GetImageCustomData curImg w1 = (inl cur, w2) →
  GetImageCustomData newImg w2 = (inl new, w3) →
  size (Processes new) ≠ 0%nat →
  let args := mkPipelineArgs a newImg (buildNewSpec rangeKeys (Processes new) updateSpec)
                             curImg (buildCurrentSpec rangeKeys (Processes cur)) in
  deploys labelsCheck args (toDeploy rangeKeys args) w3 wA tA →
  AppendAppImageName (GetName a) newImg wA = (Some err, wB) →
  let undo := rollbackAddedProcesses labelsCheck args (toDeploy rangeKeys args) wB in
  RunServicePipeline labelsCheck rangeKeys a newImg updateSpec w =
    (Some (ErrWithStack err), world_of undo,
     [EvAppCurrentImageName (GetName a); EvGetImageCustomData curImg;
      EvGetImageCustomData newImg] ++
     tA ++ [EvAppendAppImageName (GetName a) newImg] ++ events_of undo).
Proof.
  intros Hcur Hdata Hnew Hsize args Hdeploys Happend undo.
  rewrite (RunServicePipeline_executes _ _ _ _ _ _ _ _ _ _ Hcur Hdata Hnew Hsize).
  fold args.
  pose proof (updateServices_Forward_success args ResNil _ _ _ Hdeploys) as Hok.
  assert (AppendAppImageName (GetName (app args)) (newImage args) wA = (Some err, wB))
    as Happend' by exact Happend.
  assert (GetName (app args) = GetName a) as Hname by reflexivity.
  assert (newImage args = newImg) as Himg by reflexivity.
  clearbody args. unfold Execute.
  rewrite (pipelineForward_step_ok (updateServices labelsCheck rangeKeys) _ _ _ _ _ _ _ _ Hok).
  pose proof (updateImageInDB_Forward_run
                (mkFWContext args (ResStrings (toDeploy rangeKeys args))) wA) as Hdb.
  cbn [fwParams Previous] in Hdb. rewrite Happend' in Hdb. cbn [fst snd] in Hdb.
  rewrite (pipelineForward_step_error updateImageInDB _ _ _ _ _ _ _ _ Hdb).
  cbn [pipelineRollback Backward updateServices]. unfold bind.
  change (updateServices_Backward labelsCheck
            (mkBWContext args (ResStrings (toDeploy rangeKeys args))) wB)
    with (rollbackAddedProcesses labelsCheck args (toDeploy rangeKeys args) wB).
  subst undo.
  destruct (rollbackAddedProcesses labelsCheck args (toDeploy rangeKeys args) wB)
    as [[[] wU] tU].
  unfold ret, value_of, world_of, events_of. cbn [fst snd].
  rewrite Hname, Himg. by rewrite !app_nil_r.
Qed.

End MoreProperties.

(** ** Properties of the healing history code *)

Module HealerFacts.

Import Healer.

Section Facts.

Context `{Domain} `{!Codec} {W : Type} `{!Store W}.

Lemma insertEvent_run data oid target allowed startOpts endOpts (w : W) :
  let evt := mkEvent oid (StartTime data) (EndTime data) target
                     (mkOwner OwnerTypeInternal "") (mkKind KindTypeInternal "healer")
                     allowed (Error data) zeroPayload zeroPayload in
  insertEvent data oid target allowed startOpts endOpts w =
    (Returned (if IsDup (RawInsert evt startOpts endOpts w).1 then None
               else (RawInsert evt startOpts endOpts w).1),
     (RawInsert evt startOpts endOpts w).2,
     [CallRawInsert evt startOpts endOpts]).
Proof.
  cbv zeta. unfold insertEvent, bind, call, ret.
  destruct (RawInsert _ _ _ w) as [answer w1]. cbn [fst snd].
  by destruct (IsDup answer).
Qed.

(** X13. [healingEventToEvent] rejects a record before it touches any
    store: an id that is not an [ObjectId] makes the type assertion panic,
    and an action other than ["node-healing"] and ["container-healing"]
    gives the "invalid action" error; in both cases no call is made and
    the world is unchanged. *)
Theorem healingEventToEvent_rejects (data : HealingEvent) (w : W) :
  ((∀ oid, ID data ≠ Some (IdObject oid)) →
   healingEventToEvent data w = (Panicked, w, [])) ∧
  (∀ oid,
     ID data = Some (IdObject oid) →
     Action data ≠ "node-healing" →
     Action data ≠ "container-healing" →
     healingEventToEvent data w =
       (Returned (Some (ErrInvalidAction (Action data))), w, [])).
Proof.
  split.
  - intros Hid. unfold healingEventToEvent.
    destruct (ID data) as [[oid|v]|]; [by destruct (Hid oid)|done|done].
  - intros oid Hid Hnode Hcontainer. unfold healingEventToEvent. rewrite Hid.
    by rewrite !decide_False by done.
Qed.

(** X14. For a record with an [ObjectId] and one of the two actions,
    [healingEventToEvent] makes exactly one [RawInsert], as its last call.
    The inserted event has the id, the times and the error text of the
    record, an internal owner and the internal kind ["healer"]. A
    duplicate-key answer of the insert is turned into [nil]; any other
    answer is returned as it is. *)
Theorem healingEventToEvent_inserts (data : HealingEvent) oid (w : W) :
  ID data = Some (IdObject oid) →
  Action data = "node-healing" ∨ Action data = "container-healing" →
  ∃ pre evt startOpts endOpts w1,
    (healingEventToEvent data w).2 = pre ++ [CallRawInsert evt startOpts endOpts] ∧
    Forall (λ c, is_insert c = false) pre ∧
    (healingEventToEvent data w).1.2 = (RawInsert evt startOpts endOpts w1).2 ∧
    (healingEventToEvent data w).1.1 =
      Returned (if IsDup (RawInsert evt startOpts endOpts w1).1 then None
                else (RawInsert evt startOpts endOpts w1).1) ∧
    UniqueID evt = oid ∧
    evStartTime evt = StartTime data ∧ evEndTime evt = EndTime data ∧
    evError evt = Error data ∧
    evOwner evt = mkOwner OwnerTypeInternal "" ∧
    evKind evt = mkKind KindTypeInternal "healer" ∧
    targetType (evTarget evt) =
      (if decide (Action data = "node-healing") then TargetTypeNode
       else TargetTypeContainer).
Proof.
  intros Hid Haction. unfold healingEventToEvent. rewrite Hid.
  destruct (decide (Action data = "node-healing")) as [Hnode|Hnode].
  - rewrite insertEvent_run. cbv zeta. cbn [fst snd].
    eexists [], _, _, _, w. cbn [app]. repeat split; done.
  - destruct Haction as [?|Hcontainer]; [done|].
    rewrite decide_True by done. unfold bind, call.
    destruct (GetByName _ w) as [r w1].
    rewrite insertEvent_run. cbv zeta. cbn [fst snd].
    eexists [CallGetByName _], _, _, _, w1. cbn [app].
    repeat split; try done. by repeat constructor.
Qed.

(** X15. With the target types ["container"] and ["node"] of package
    [event], a healing event listed by [toHealingEvt] from such an event is
    accepted by [healingEventToEvent]: the event inserted has the same id,
    times, error text and target type, and its custom data is the decoded
    custom data of the original (the last check of a node goes through the
    JSON round trip). *)
Theorem listed_event_migrates_back (evt : Event) (healingEvt : HealingEvent) (w : W) :
  TargetTypeContainer = "container" →
  TargetTypeNode = "node" →
  targetType (evTarget evt) = "container" ∨ targetType (evTarget evt) = "node" →
  toHealingEvt evt = inl healingEvt →
  ∃ pre evt' startOpts endOpts,
    (healingEventToEvent healingEvt w).2 = pre ++ [CallRawInsert evt' startOpts endOpts] ∧
    UniqueID evt' = UniqueID evt ∧
    evStartTime evt' = evStartTime evt ∧ evEndTime evt' = evEndTime evt ∧
    evError evt' = evError evt ∧
    targetType (evTarget evt') = targetType (evTarget evt) ∧
    (targetType (evTarget evt) = "container" →
     decodeContainer (StartCustomData evt) = inl (FailingContainer healingEvt) ∧
     decodeContainer (EndCustomData evt) = inl (CreatedContainer healingEvt) ∧
     startOpts = DataContainer (FailingContainer healingEvt) ∧
     endOpts = DataContainer (CreatedContainer healingEvt)) ∧
    (targetType (evTarget evt) = "node" →
     ∃ data,
       decodeNodeHealer (StartCustomData evt) = inl data ∧
       decodeNodeSpec (EndCustomData evt) = inl (CreatedNode healingEvt) ∧
       startOpts =
         DataNodeHealer
           (mkNodeHealerCustomData (Node data) (dataReason data)
              match LastCheck data with
              | Some c => recodeChecks (ExtraChecks c)
              | None => None
              end) ∧
       endOpts = DataNode (CreatedNode healingEvt)).
Proof.
  intros Hcontainer Hnode Htype. unfold toHealingEvt. rewrite Hcontainer, Hnode.
  destruct Htype as [Htype|Htype]; rewrite Htype.
  - rewrite decide_True by done.
    destruct (decodeContainer (StartCustomData evt)) as [failing|] eqn:Hstart; [|done].
    destruct (decodeContainer (EndCustomData evt)) as [created|] eqn:Hend; [|done].
    intros [= <-]. unfold healingEventToEvent.
    cbn [ID Action StartTime EndTime Error FailingContainer CreatedContainer].
    rewrite decide_False by done. rewrite decide_True by done.
    unfold bind, call. destruct (GetByName _ w) as [r w1].
    rewrite insertEvent_run. cbv zeta. cbn [fst snd].
    eexists [CallGetByName _], _, _, _. cbn [app].
    split; [reflexivity|]. cbn. rewrite Hcontainer.
    repeat split; done.
  - rewrite decide_False by done. rewrite decide_True by done.
    destruct (decodeNodeHealer (StartCustomData evt)) as [data|] eqn:Hstart; [|done].
    destruct (decodeNodeSpec (EndCustomData evt)) as [created|] eqn:Hend; [|done].
    intros [= <-]. unfold healingEventToEvent.
    cbn [ID Action StartTime EndTime Error FailingNode CreatedNode Extra Reason].
    rewrite decide_True by done.
    rewrite insertEvent_run. cbv zeta. cbn [fst snd].
    eexists [], _, _, _. cbn [app].
    split; [reflexivity|]. cbn. rewrite Hnode.
    repeat split; try done. intros _. exists data.
    repeat split; try done. by destruct (LastCheck data).
Qed.

(** X16. A filter that [event.GetTargetType] does not know is ignored
    without an error: the listing is the one of the empty filter. *)
Theorem ListHealingHistory_unknown_filter (filter : string) err (w : W) :
  GetTargetType filter = inr err →
  ListHealingHistory filter w = ListHealingHistory "" w.
Proof.
  intros Hunknown. unfold ListHealingHistory. rewrite Hunknown.
  by destruct (decide (filter ≠ "")).
Qed.

Lemma convertAll_ok (evts : list Event) healingEvts :
  convertAll evts = inl healingEvts ↔
  Forall2 (λ evt healingEvt, toHealingEvt evt = inl healingEvt) evts healingEvts.
Proof.
  revert healingEvts. induction evts as [|evt evts IH]; intros healingEvts; cbn [convertAll].
  - split.
    + intros [= <-]. constructor.
    + intros Hall. by inversion Hall.
  - destruct (toHealingEvt evt) as [h|err] eqn:Hevt.
    + destruct (convertAll evts) as [hs|err] eqn:Hrest.
      * split.
        -- intros [= <-]. constructor; [done|]. by apply IH.
        -- intros Hall. inversion Hall as [|? h' ? hs' Hh Hhs]; subst.
           apply IH in Hhs. congruence.
      * split; [done|]. intros Hall. inversion Hall as [|? h' ? hs' Hh Hhs]; subst.
        apply IH in Hhs. done.
    + split; [done|]. intros Hall. inversion Hall; subst. congruence.
Qed.

Lemma convertAll_error (evts : list Event) err :
  convertAll evts = inr err →
  ∃ pre evt post,
    evts = pre ++ evt :: post ∧
    Forall (λ e, ∃ h, toHealingEvt e = inl h) pre ∧
    toHealingEvt evt = inr err.
Proof.
  induction evts as [|evt evts IH]; cbn [convertAll]; [done|].
  destruct (toHealingEvt evt) as [h|err'] eqn:Hevt.
  - destruct (convertAll evts) as [hs|err'] eqn:Hrest; [done|].
    intros [= ->]. destruct (IH eq_refl) as (pre & e & post & -> & Hpre & He).
    exists (evt :: pre), e, post. split; [done|]. split; [|done].
    constructor; eauto.
  - intros [= ->]. exists [], evt, evts. split; [done|]. split; [constructor|done].
Qed.

(** X17. [ListHealingHistory] is all or nothing. It asks the event log
    once; an error of the log is returned as it is; when the log answers
    with a list of events, the result is their conversions, one per event
    and in the same order, unless a conversion fails, and then the result
    is the error of the first event that cannot be converted. The log is
    asked for the kind ["healer"] and for the target type the filter
    names, if it names one. *)
Theorem ListHealingHistory_all_or_nothing (filter : string) (w : W) :
  ∃ evtFilter,
    (ListHealingHistory filter w).2 = [CallList evtFilter] ∧
    (ListHealingHistory filter w).1.2 = (List evtFilter w).2 ∧
    filterKindName evtFilter = "healer" ∧
    filterTarget evtFilter =
      mkTarget (if decide (filter ≠ "") then
                  match GetTargetType filter with inl t => t | inr _ => "" end
                else "") "" ∧
    match (List evtFilter w).1 with
    | inr err => (ListHealingHistory filter w).1.1 = inr err
    | inl evts =>
        (∀ healingEvts,
           (ListHealingHistory filter w).1.1 = inl healingEvts ↔
           Forall2 (λ evt healingEvt, toHealingEvt evt = inl healingEvt) evts healingEvts) ∧
        (∀ err,
           (ListHealingHistory filter w).1.1 = inr err →
           ∃ pre evt post,
             evts = pre ++ evt :: post ∧
             Forall (λ e, ∃ h, toHealingEvt e = inl h) pre ∧
             toHealingEvt evt = inr err)
    end.
Proof.
  unfold ListHealingHistory. cbv zeta.
  match goal with
  | |- context [bind (call (List ?f) _)] => exists f
  end.
  unfold bind, call, ret.
  destruct (List _ w) as [[evts|err] w1]; cbn [fst snd].
  - split; [done|]. split; [done|]. split.
    { destruct (decide (filter ≠ "")); [destruct (GetTargetType filter)|]; done. }
    split.
    { destruct (decide (filter ≠ "")); [destruct (GetTargetType filter)|]; done. }
    split.
    + intros healingEvts. apply convertAll_ok.
    + intros err. apply convertAll_error.
  - split; [done|]. split; [done|]. split.
    { destruct (decide (filter ≠ "")); [destruct (GetTargetType filter)|]; done. }
    split; [|done].
    destruct (decide (filter ≠ "")); [destruct (GetTargetType filter)|]; done.
Qed.

Lemma migrateLoop_prefix iter data (w : W) data' w' t n fuel :
  migrated iter data w data' w' t n →
  migrateLoop (n + fuel) iter data w =
    ((migrateLoop fuel iter data' w').1.1, (migrateLoop fuel iter data' w').1.2,
     t ++ (migrateLoop fuel iter data' w').2).
Proof.
  induction 1 as [data w|data w data1 w1 w2 t2 data3 w3 t3 n Hnext Hconv Hrest IH].
  - cbn. by destruct (migrateLoop fuel iter data w) as [[o w1] t1].
  - cbn [Nat.add migrateLoop]. unfold bind at 1. unfold call. rewrite Hnext.
    cbn [fst snd]. unfold bind at 1. rewrite Hconv. rewrite IH.
    cbn [fst snd]. f_equal. cbn. by rewrite <- app_assoc.
Qed.

Lemma migrateLoop_step_bad iter data (w : W) fuel data1 w1 o w2 t2 :
  IterNext iter data w = ((true, data1), w1) →
  healingEventToEvent data1 w1 = (o, w2, t2) →
  o ≠ Returned None →
  migrateLoop (S fuel) iter data w = (Some o, w2, CallIterNext iter :: t2).
Proof.
  intros Hnext Hconv Hbad. cbn [migrateLoop]. unfold bind at 1. unfold call.
  rewrite Hnext. cbn [fst snd]. unfold bind at 1. rewrite Hconv.
  destruct o as [[err|]|]; [|by destruct Hbad|];
    unfold ret; cbn [app]; by rewrite app_nil_r.
Qed.

Lemma migrateLoop_step_end iter data (w : W) fuel data1 w1 answer w2 :
  IterNext iter data w = ((false, data1), w1) →
  IterClose iter w1 = (answer, w2) →
  migrateLoop (S fuel) iter data w =
    (Some (Returned answer), w2, [CallIterNext iter; CallIterClose iter]).
Proof.
  intros Hnext Hclose. cbn [migrateLoop]. unfold bind, call.
  rewrite Hnext. cbn [fst snd]. by rewrite Hclose.
Qed.

(** X18. The migration loop stops at the first record that is not
    inserted cleanly. After [n] records read and inserted without error:
    if the next record makes [healingEventToEvent] fail or panic, that
    outcome ends the loop, with no further read and without closing the
    cursor; if the cursor has no next record, the loop closes it and
    returns what [Close] answers. Any fuel above [n] is enough, and fuel
    up to [n] is not. *)
Theorem migrateLoop_stops_at_first_failure iter data (w : W) data' w' t n :
  migrated iter data w data' w' t n →
  (∀ fuel data1 w1 o w2 t2,
     (n < fuel)%nat →
     IterNext iter data' w' = ((true, data1), w1) →
     healingEventToEvent data1 w1 = (o, w2, t2) →
     o ≠ Returned None →
     migrateLoop fuel iter data w = (Some o, w2, t ++ CallIterNext iter :: t2)) ∧
  (∀ fuel data1 w1 answer w2,
     (n < fuel)%nat →
     IterNext iter data' w' = ((false, data1), w1) →
     IterClose iter w1 = (answer, w2) →
     migrateLoop fuel iter data w =
       (Some (Returned answer), w2, t ++ [CallIterNext iter; CallIterClose iter])) ∧
  (∀ fuel, (fuel ≤ n)%nat → (migrateLoop fuel iter data w).1.1 = None).
Proof.
  intros Hmig. split; [|split].
  - intros fuel data1 w1 o w2 t2 Hfuel Hnext Hconv Hbad.
    replace fuel with (n + S (fuel - S n))%nat by lia.
    rewrite (migrateLoop_prefix _ _ _ _ _ _ _ _ Hmig).
    by rewrite (migrateLoop_step_bad _ _ _ _ _ _ _ _ _ Hnext Hconv Hbad).
  - intros fuel data1 w1 answer w2 Hfuel Hnext Hclose.
    replace fuel with (n + S (fuel - S n))%nat by lia.
    rewrite (migrateLoop_prefix _ _ _ _ _ _ _ _ Hmig).
    by rewrite (migrateLoop_step_end _ _ _ _ _ _ _ _ Hnext Hclose).
  - intros fuel Hfuel. revert fuel Hfuel.
    induction Hmig as [data w|data w data1 w1 w2 t2 data3 w3 t3 n Hnext Hconv Hrest IH];
      intros fuel Hfuel.
    + by replace fuel with 0%nat by lia.
    + destruct fuel as [|fuel]; [done|].
      cbn [migrateLoop]. unfold bind at 1. unfold call. rewrite Hnext. cbn [fst snd].
      unfold bind at 1. rewrite Hconv.
      specialize (IH fuel ltac:(lia)).
      by destruct (migrateLoop fuel iter data1 w2) as [[o w4] t4].
Qed.

(** X19. [MigrateHealingToEvents] reads the collection name from the
    configuration, with ["healing_events"] for an empty or missing
    setting. When the connection fails its error is returned and nothing
    is opened; otherwise two cursors are opened on the collection, the
    loop runs on the second one, and the collection is closed last,
    whatever the loop ends with (an error and a panic included). *)
Theorem MigrateHealingToEvents_frame (fuel : nat) (w : W) :
  let key := "docker:healing:events_collection" in
  let setting := (ConfigGetString key w).1.1 in
  let name := if decide (setting = "") then "healing_events" else setting in
  let w1 := (ConfigGetString key w).2 in
  match (Conn w1).1 with
  | Some err =>
      MigrateHealingToEvents fuel w =
        (Some (Returned (Some err)), (Conn w1).2, [CallConfigGetString key; CallConn])
  | None =>
      let w3 := (FindIter name (Conn w1).2).2 in
      let iter := (FindIter name w3).1 in
      let loop := migrateLoop fuel iter zeroHealingEvent (FindIter name w3).2 in
      MigrateHealingToEvents fuel w =
        (loop.1.1, CollClose name loop.1.2,
         [CallConfigGetString key; CallConn; CallFindIter name; CallFindIter name] ++
         loop.2 ++ [CallCollClose name])
  end.
Proof.
  cbv zeta. unfold MigrateHealingToEvents, oldHealingCollection, bind, call, ret.
  destruct (ConfigGetString _ w) as [[setting cfgErr] w1]. cbn [fst snd].
  destruct (Conn w1) as [[err|] w2]; cbn [fst snd]; [done|].
  destruct (FindIter _ w2) as [iter0 w3]. cbn [fst snd].
  destruct (FindIter _ w3) as [iter w4]. cbn [fst snd].
  destruct (migrateLoop fuel iter zeroHealingEvent w4) as [[o w5] t]. cbn [fst snd app].
  by rewrite app_nil_r.
Qed.

End Facts.

End HealerFacts.

(** ** The claims on the cluster held in memory *)

#[local] Existing Instance cluster_manager.
#[local] Existing Instance cluster_images.

Lemma is_int_small z : -1000 <= z <= 1000 → is_int z.
Proof. unfold is_int, int_min, int_max. lia. Qed.

(** C5 as stated fails: scaling [web] from 2 replicas by -3 is rejected with
    the invalid-scale error, yet one backend call is made for the process,
    the label read. *)
Lemma negative_scale_reads_labels :
  let r := deployService labelsAlwaysValid (argsFor "v2" ∅) "web" "v2" (scaleBy (-3))
             (clusterWith runningWeb 2) in
  AppReplicas runningWeb + Increment (scaleBy (-3)) < 0 ∧
  value_of r = Some ErrNegativeUnits ∧
  filter (λ ev, is_backend_call ev = true) (events_of r) = [EvCurrentLabels "web"] ∧
  filter (λ ev, is_backend_call ev = true) (events_of r) ≠ [].
Proof. cbv zeta. split; [done|]. split; [reflexivity|]. split; [reflexivity|done]. Qed.

Lemma negative_scale_is_rejected_witness :
  let c := clusterWith runningWeb 2 in
  CurrentLabels tsuruApp "web" c = (inl (Some runningWeb), c) ∧
  0 <= replicas (seedState (Some runningWeb)) ∧
  is_int (Increment (scaleBy (-3))) ∧
  replicas (seedState (Some runningWeb)) + Increment (scaleBy (-3)) < 0 ∧
  deployService labelsAlwaysValid (argsFor "v2" ∅) "web" "v2" (scaleBy (-3)) c =
    (Some ErrNegativeUnits, c, [EvCurrentLabels "web"]).
Proof.
  cbv zeta.
  assert (CurrentLabels tsuruApp "web" (clusterWith runningWeb 2) =
            (inl (Some runningWeb), clusterWith runningWeb 2)) as Hread by reflexivity.
  assert (0 <= replicas (seedState (Some runningWeb))) as Hpos by (cbn; lia).
  assert (is_int (Increment (scaleBy (-3)))) as Hint by (apply is_int_small; cbn; lia).
  assert (replicas (seedState (Some runningWeb)) + Increment (scaleBy (-3)) < 0)
    as Hneg by (cbn; lia).
  split; [exact Hread|]. split; [exact Hpos|]. split; [exact Hint|]. split; [exact Hneg|].
  exact (negative_scale_is_rejected labelsAlwaysValid (argsFor "v2" ∅) "web" "v2"
           (scaleBy (-3)) (clusterWith runningWeb 2) (Some runningWeb)
           (clusterWith runningWeb 2) Hread Hpos Hint Hneg).
Defined.

(** C6 as stated fails: [Start: true] with [Increment: 3] on a process with
    zero replicas yields 3 replicas after the merge, and 3 are deployed. *)
Lemma start_with_increment_counterexample :
  let pState := mkProcessState false true false false 3 in
  AppReplicas idleWeb = 0 ∧
  Start pState = true ∧
  (∃ s, mergeState pState (Some idleWeb) = inl s ∧ replicas s = 3 ∧ replicas s ≠ 1) ∧
  events_of (deployService labelsAlwaysValid (argsFor "v2" ∅) "web" "v2" pState
               (clusterWith idleWeb 0)) =
    [EvCurrentLabels "web";
     EvDeployService "web" (mkLabelSet "myapp" "web" 3 0 false false) 3 "v2"].
Proof.
  cbv zeta. split; [done|]. split; [done|]. split; [|reflexivity].
  exists (mkRuntimeState 3 0 false false). split; [reflexivity|]. done.
Qed.

Lemma start_on_zero_replicas_witness :
  let pState := mkProcessState false false true true 0 in
  Start pState || Restart pState = true ∧
  replicas (seedState (Some idleWeb)) = 0 ∧
  is_int (Increment pState) ∧
  ∃ s, mergeState pState (Some idleWeb) = inl s ∧
       replicas s = 1 ∧ isStopped s = false ∧ isAsleep s = false ∧
       ∃ labels,
         events_of (deployService labelsAlwaysValid (argsFor "v2" ∅) "web" "v2" pState
                      (clusterWith idleWeb 0)) =
           [EvCurrentLabels "web"; EvDeployService "web" labels 1 "v2"] ∧
         AppReplicas labels = 1 ∧ IsStopped labels = false ∧ IsAsleep labels = true.
Proof.
  cbv zeta.
  assert (is_int 0) as Hint by (apply is_int_small; lia).
  assert (CurrentLabels tsuruApp "web" (clusterWith idleWeb 0) =
            (inl (Some idleWeb), clusterWith idleWeb 0)) as Hread by reflexivity.
  split; [reflexivity|]. split; [reflexivity|]. split; [exact Hint|].
  destruct (start_on_zero_replicas labelsAlwaysValid
              (mkProcessState false false true true 0) (Some idleWeb)
              eq_refl eq_refl Hint) as [Hzero _].
  destruct (Hzero eq_refl) as (s & Hmerge & Hone & Hstopped & Hasleep & Hdeploy).
  exists s. split; [exact Hmerge|]. split; [exact Hone|].
  split; [exact Hstopped|]. split; [exact Hasleep|].
  exact (Hdeploy (argsFor "v2" ∅) "web" "v2" (clusterWith idleWeb 0) (clusterWith idleWeb 0)
           Hread eq_refl).
Defined.

(** C9 on a request that asks for [Stop] and [Start] at once. *)
Lemma stop_takes_precedence_witness :
  let pState := mkProcessState true true false false 0 in
  Stop pState = true ∧
  ∃ labels,
    events_of (deployService labelsAlwaysValid (argsFor "v2" ∅) "web" "v2" pState
                 (clusterWith runningWeb 2)) =
      [EvCurrentLabels "web"; EvDeployService "web" labels 0 "v2"] ∧
    IsStopped labels = true ∧ AppReplicas labels = 2.
Proof.
  cbv zeta. split; [reflexivity|].
  assert (CurrentLabels tsuruApp "web" (clusterWith runningWeb 2) =
            (inl (Some runningWeb), clusterWith runningWeb 2)) as Hread by reflexivity.
  destruct (stop_takes_precedence labelsAlwaysValid (argsFor "v2" ∅) "web" "v2"
              (mkProcessState true true false false 0) (clusterWith runningWeb 2) eq_refl)
    as [_ Hdeploy].
  exact (Hdeploy (Some runningWeb) (clusterWith runningWeb 2)
           (mkRuntimeState 2 0 false false) Hread eq_refl eq_refl).
Defined.

(** C10 on a running process that is put to sleep. *)
Lemma sleep_does_not_scale_down_witness :
  let pState := mkProcessState false false false true 0 in
  let c := clusterWith runningWeb 2 in
  Sleep pState = true ∧ Stop pState = false ∧
  CurrentLabels tsuruApp "web" c = (inl (Some runningWeb), c) ∧
  isStopped (seedState (Some runningWeb)) = false ∧
  ∃ labels,
    events_of (deployService labelsAlwaysValid (argsFor "v2" ∅) "web" "v2" pState c) =
      [EvCurrentLabels "web"; EvDeployService "web" labels 2 "v2"] ∧
    IsAsleep labels = true ∧ IsStopped labels = false ∧ AppReplicas labels = 2.
Proof.
  cbv zeta.
  assert (CurrentLabels tsuruApp "web" (clusterWith runningWeb 2) =
            (inl (Some runningWeb), clusterWith runningWeb 2)) as Hread by reflexivity.
  split; [reflexivity|]. split; [reflexivity|]. split; [exact Hread|].
  split; [reflexivity|].
  destruct (sleep_does_not_scale_down labelsAlwaysValid (argsFor "v2" ∅) "web" "v2"
              (mkProcessState false false false true 0) (clusterWith runningWeb 2)
              (Some runningWeb) (clusterWith runningWeb 2)
              eq_refl eq_refl Hread eq_refl)
    as [_ Hdeploy].
  exact (Hdeploy (mkRuntimeState 2 0 false false) eq_refl eq_refl).
Defined.

Lemma elements_range (s : gset string) : elements s ≡ₚ elements s.
Proof. reflexivity. Qed.

Lemma declared_web_worker p :
  p = "web" ∨ p = "worker" → p ∈ dom (Processes (declares ["web"; "worker"])).
Proof. intros [-> | ->]; apply elem_of_dom; eexists; reflexivity. Qed.

(** C2 as stated fails: when the caller overrides only [web], the process
    [worker] has no override and yet does not get [Start: true]; it gets
    the zero state and is deployed with no replica. *)
Lemma partial_override_counterexample :
  let u : ProcessSpec := {[ "web" := stopState ]} in
  let processes := Processes (declares ["web"; "worker"]) in
  "worker" ∈ dom processes ∧
  u !! "worker" = None ∧
  buildNewSpec elements processes (Some u) !! "worker" = Some zeroState ∧
  buildNewSpec elements processes (Some u) !! "worker" ≠ Some startState ∧
  filter (λ ev, is_deploy_call ev = true)
         (events_of (RunServicePipeline labelsAlwaysValid elements tsuruApp "v2" (Some u)
                       (clusterWith runningWeb 2))) =
    [EvDeployService "web" (mkLabelSet "myapp" "web" 2 0 true false) 0 "v2";
     EvDeployService "worker" (mkLabelSet "myapp" "worker" 0 0 false false) 0 "v2"].
Proof.
  cbv zeta. split; [apply declared_web_worker; by right|].
  split; [reflexivity|].
  assert (buildNewSpec elements (Processes (declares ["web"; "worker"]))
            (Some {[ "web" := stopState ]}) !! "worker" = Some zeroState) as Hzero
    by (vm_compute; reflexivity).
  split; [exact Hzero|]. split; [by rewrite Hzero|].
  vm_compute. reflexivity.
Qed.

Lemma new_spec_default_and_override_witness :
  let processes := Processes (declares ["web"; "worker"]) in
  let u : ProcessSpec := {[ "web" := stopState ]} in
  (∀ s : gset string, elements s ≡ₚ elements s) ∧
  "web" ∈ dom processes ∧
  u !! "web" = Some stopState ∧
  buildNewSpec elements processes None !! "web" = Some startState ∧
  buildNewSpec elements processes (Some u) !! "web" = Some stopState.
Proof.
  cbv zeta.
  assert ("web" ∈ dom (Processes (declares ["web"; "worker"]))) as Hin
    by (apply declared_web_worker; by left).
  assert ((({[ "web" := stopState ]} : ProcessSpec) !! "web") = Some stopState) as Hu
    by reflexivity.
  split; [exact elements_range|]. split; [exact Hin|]. split; [exact Hu|].
  destruct (new_spec_default_and_override elements elements_range
              (Processes (declares ["web"; "worker"])) "web" Hin)
    as (_ & Hdefault & _ & Hoverride & _).
  split; [exact Hdefault|].
  exact (Hoverride {[ "web" := stopState ]} stopState Hu).
Defined.

(** C7 as stated fails: in a plain deploy (no override spec at all) a
    stopped [web] gets the default [Start: true]; it is deployed with 2
    replicas and its labels lose the stopped marker. *)
Lemma stopped_process_is_started_counterexample :
  let c := clusterWith stoppedWeb 0 in
  let r := RunServicePipeline labelsAlwaysValid elements tsuruApp "v2" None c in
  (CurrentLabels tsuruApp "web" c).1 = inl (Some stoppedWeb) ∧
  IsStopped stoppedWeb = true ∧
  value_of r = None ∧
  filter (λ ev, is_deploy_call ev = true) (events_of r) =
    [EvDeployService "web" (mkLabelSet "myapp" "web" 2 0 false false) 2 "v2";
     EvDeployService "worker" (mkLabelSet "myapp" "worker" 1 0 false false) 1 "v2"] ∧
  ¬ (∃ labels img, EvDeployService "web" labels 0 img ∈ events_of r).
Proof.
  cbv zeta. split; [reflexivity|]. split; [reflexivity|].
  split; [vm_compute; reflexivity|].
  assert (events_of (RunServicePipeline labelsAlwaysValid elements tsuruApp "v2" None
                       (clusterWith stoppedWeb 0)) =
          [EvAppCurrentImageName "myapp"; EvGetImageCustomData "v1";
           EvGetImageCustomData "v2"; EvCurrentLabels "web";
           EvDeployService "web" (mkLabelSet "myapp" "web" 2 0 false false) 2 "v2";
           EvCurrentLabels "worker";
           EvDeployService "worker" (mkLabelSet "myapp" "worker" 1 0 false false) 1 "v2";
           EvAppendAppImageName "myapp" "v2"]) as Hevents by (vm_compute; reflexivity).
  split; [by rewrite Hevents|].
  rewrite Hevents. intros (labels & img & Hin).
  repeat (apply elem_of_cons in Hin as [Hin|Hin]; [discriminate Hin|]).
  by apply not_elem_of_nil in Hin.
Qed.

Lemma stopped_process_stays_stopped_witness :
  let processes := Processes (declares ["web"; "worker"]) in
  let u : ProcessSpec := {[ "worker" := startState ]} in
  let c := clusterWith stoppedWeb 0 in
  (∀ s : gset string, elements s ≡ₚ elements s) ∧
  "web" ∈ dom processes ∧
  u !! "web" = None ∧
  CurrentLabels tsuruApp "web" c = (inl (Some stoppedWeb), c) ∧
  IsStopped stoppedWeb = true ∧
  ∃ labels,
    events_of (deployService labelsAlwaysValid (argsFor "v2" ∅) "web" "v2"
                 (specAt (buildNewSpec elements processes (Some u)) "web") c) =
      [EvCurrentLabels "web"; EvDeployService "web" labels 0 "v2"] ∧
    IsStopped labels = true ∧
    AppReplicas labels = AppReplicas stoppedWeb.
Proof.
  cbv zeta.
  assert ("web" ∈ dom (Processes (declares ["web"; "worker"]))) as Hin
    by (apply declared_web_worker; by left).
  assert ((({[ "worker" := startState ]} : ProcessSpec) !! "web") = None) as Hu
    by reflexivity.
  assert (CurrentLabels tsuruApp "web" (clusterWith stoppedWeb 0) =
            (inl (Some stoppedWeb), clusterWith stoppedWeb 0)) as Hread by reflexivity.
  split; [exact elements_range|]. split; [exact Hin|]. split; [exact Hu|].
  split; [exact Hread|]. split; [reflexivity|].
  exact (stopped_process_stays_stopped labelsAlwaysValid elements elements_range
           (argsFor "v2" ∅) "web" "v2" (Processes (declares ["web"; "worker"]))
           {[ "worker" := startState ]} stoppedWeb (clusterWith stoppedWeb 0)
           (clusterWith stoppedWeb 0) Hin Hu Hread eq_refl eq_refl).
Defined.

(** C4 on the image ["empty"], which declares no process. *)
Lemma no_process_information_witness :
  let c := clusterWith runningWeb 2 in
  AppCurrentImageName "myapp" c = (inl "v1", c) ∧
  GetImageCustomData "v1" c = (inl (declares ["web"]), c) ∧
  GetImageCustomData "empty" c = (inl (declares []), c) ∧
  size (Processes (declares [])) = 0%nat ∧
  RunServicePipeline labelsAlwaysValid elements tsuruApp "empty" None c =
    (Some (ErrNoProcessInfo "empty"), c,
     [EvAppCurrentImageName "myapp"; EvGetImageCustomData "v1";
      EvGetImageCustomData "empty"]) ∧
  filter (λ ev, is_backend_call ev = true)
         (events_of (RunServicePipeline labelsAlwaysValid elements tsuruApp "empty" None c)) = [].
Proof.
  cbv zeta.
  assert (AppCurrentImageName "myapp" (clusterWith runningWeb 2) =
            (inl "v1", clusterWith runningWeb 2)) as Hcur by reflexivity.
  assert (GetImageCustomData "v1" (clusterWith runningWeb 2) =
            (inl (declares ["web"]), clusterWith runningWeb 2)) as Hdata by reflexivity.
  assert (GetImageCustomData "empty" (clusterWith runningWeb 2) =
            (inl (declares []), clusterWith runningWeb 2)) as Hnew by reflexivity.
  assert (size (Processes (declares [])) = 0%nat) as Hsize by reflexivity.
  split; [exact Hcur|]. split; [exact Hdata|]. split; [exact Hnew|]. split; [exact Hsize|].
  exact (no_process_information labelsAlwaysValid elements tsuruApp "empty" None
           (clusterWith runningWeb 2) "v1" (clusterWith runningWeb 2) (declares ["web"])
           (clusterWith runningWeb 2) (declares []) (clusterWith runningWeb 2)
           Hcur Hdata Hnew Hsize).
Defined.

(** C8 on the example of the specification: the current spec has [a], [b]
    and [c], the new one [a] and [c], and [b] cannot be removed. *)
Lemma removeOldServices_removes_difference_witness :
  let current : ProcessSpec := {[ "a" := zeroState; "b" := zeroState; "c" := zeroState ]} in
  let new : ProcessSpec := {[ "a" := startState; "c" := startState ]} in
  let args := mkPipelineArgs tsuruApp "v2" new "v1" current in
  let c := clusterOf ∅ "v1" {[ "b" ]} in
  let r := removeOldServices_Forward elements (mkFWContext args ResNil) c in
  (∀ s : gset string, elements s ≡ₚ elements s) ∧
  value_of r = inl ResNil ∧
  removals (events_of r) ≡ₚ elements (Difference (FromMap current) (FromMap new)) ∧
  (∀ p, p ∈ removals (events_of r) ↔ p ∈ dom current ∧ p ∉ dom new) ∧
  pipelineForward [removeOldServices elements] [] args ResNil c =
    (None, world_of r, events_of r).
Proof.
  cbv zeta. split; [exact elements_range|].
  destruct (removeOldServices_removes_difference elements elements_range
              (mkPipelineArgs tsuruApp "v2" {[ "a" := startState; "c" := startState ]} "v1"
                 {[ "a" := zeroState; "b" := zeroState; "c" := zeroState ]})
              ResNil [] (clusterOf ∅ "v1" {[ "b" ]}))
    as (Hvalue & Hperm & Hexact & _ & _ & Hrun).
  split; [exact Hvalue|]. split; [exact Hperm|]. split; [exact Hexact|]. exact Hrun.
Defined.

(** The same run, evaluated: [b] is the only removal, its failure is
    logged, and the action succeeds. *)
Example removeOldServices_abc :
  let current : ProcessSpec := {[ "a" := zeroState; "b" := zeroState; "c" := zeroState ]} in
  let new : ProcessSpec := {[ "a" := startState; "c" := startState ]} in
  let args := mkPipelineArgs tsuruApp "v2" new "v1" current in
  let r := removeOldServices_Forward elements (mkFWContext args ResNil)
             (clusterOf ∅ "v1" {[ "b" ]}) in
  elements (Difference (FromMap current) (FromMap new)) = ["b"] ∧
  value_of r = inl ResNil ∧
  events_of r =
    [EvRemoveService "b";
     EvLog (LogIgnoredRemoveError "myapp" "b" (ErrExternal "remove failed"))].
Proof. cbv zeta. repeat split; vm_compute; reflexivity. Qed.

(** A whole run from ["v2"] back to ["v1"]: [worker] is no longer declared,
    its removal fails, and the run still succeeds with the image recorded. *)
Example run_drops_worker :
  let c := clusterOf {[ "web" := mkService runningWeb 2 "v2";
                        "worker" := mkService (mkLabelSet "myapp" "worker" 1 0 false false) 1 "v2" ]}
                     "v2" {[ "worker" ]} in
  let r := RunServicePipeline labelsAlwaysValid elements tsuruApp "v1" None c in
  value_of r = None ∧
  appImages (world_of r) !! "myapp" = Some ["v2"; "v1"] ∧
  events_of r =
    [EvAppCurrentImageName "myapp"; EvGetImageCustomData "v2"; EvGetImageCustomData "v1";
     EvCurrentLabels "web"; EvDeployService "web" runningWeb 2 "v1";
     EvAppendAppImageName "myapp" "v1";
     EvRemoveService "worker";
     EvLog (LogIgnoredRemoveError "myapp" "worker" (ErrExternal "remove failed"))].
Proof. cbv zeta. repeat split; vm_compute; reflexivity. Qed.

(** C3 as stated fails: [web] is stopped before the run (labels with the
    stopped marker, scale 0). The run starts it with the new image, fails
    on [worker], and compensation deploys the old image with the labels it
    reads at that moment: [web] ends up running 2 replicas, not stopped. *)
Lemma rollback_does_not_restore_counterexample :
  let c := clusterWith stoppedWeb 0 in
  let u : ProcessSpec := {[ "web" := startState; "worker" := scaleBy (-1) ]} in
  let r := RunServicePipeline labelsAlwaysValid elements tsuruApp "v2" (Some u) c in
  (CurrentLabels tsuruApp "web" c).1 = inl (Some stoppedWeb) ∧
  services c !! "web" = Some (mkService stoppedWeb 0 "v1") ∧
  value_of r = Some ErrNegativeUnits ∧
  events_of r =
    [EvAppCurrentImageName "myapp"; EvGetImageCustomData "v1"; EvGetImageCustomData "v2";
     EvCurrentLabels "web"; EvDeployService "web" runningWeb 2 "v2";
     EvCurrentLabels "worker";
     EvCurrentLabels "web"; EvDeployService "web" runningWeb 2 "v1"] ∧
  services (world_of r) !! "web" = Some (mkService runningWeb 2 "v1") ∧
  (CurrentLabels tsuruApp "web" (world_of r)).1 ≠ (CurrentLabels tsuruApp "web" c).1 ∧
  IsStopped runningWeb ≠ IsStopped stoppedWeb.
Proof.
  cbv zeta. split; [reflexivity|]. split; [reflexivity|].
  split; [vm_compute; reflexivity|]. split; [vm_compute; reflexivity|].
  assert (services (world_of (RunServicePipeline labelsAlwaysValid elements tsuruApp "v2"
            (Some {[ "web" := startState; "worker" := scaleBy (-1) ]})
            (clusterWith stoppedWeb 0))) !! "web" = Some (mkService runningWeb 2 "v1"))
    as Hafter by (vm_compute; reflexivity).
  split; [exact Hafter|]. split; [|done].
  cbn [CurrentLabels cluster_manager fst]. rewrite Hafter. done.
Qed.

Lemma compensation_redeploys_or_removes_witness :
  let args := argsFor "v2" {[ "web" := startState; "worker" := startState ]} in
  let c := clusterOf {[ "web" := mkService runningWeb 2 "v2";
                        "worker" := mkService (mkLabelSet "myapp" "worker" 1 0 false false) 1 "v2" ]}
                     "v1" ∅ in
  (∀ s : gset string, elements s ≡ₚ elements s) ∧
  currentImageSpec args = buildCurrentSpec elements (Processes (declares ["web"])) ∧
  "web" ∈ dom (Processes (declares ["web"])) ∧
  ("worker" ∉ dom (Processes (declares ["web"]))) ∧
  CurrentLabels tsuruApp "web" c = (inl (Some runningWeb), c) ∧
  (∃ labels,
     filter (λ ev, is_backend_call ev = true)
            (events_of (rollbackProcess labelsAlwaysValid args "web" c)) =
       [EvCurrentLabels "web"; EvDeployService "web" labels 2 "v1"] ∧
     AppReplicas labels = 2 ∧ IsStopped labels = false ∧ IsAsleep labels = false ∧
     Restarts labels = 0) ∧
  filter (λ ev, is_backend_call ev = true)
         (events_of (rollbackProcess labelsAlwaysValid args "worker" c)) =
    [EvRemoveService "worker"].
Proof.
  cbv zeta.
  set (args := argsFor "v2" {[ "web" := startState; "worker" := startState ]}).
  set (c := clusterOf _ "v1" ∅).
  assert (currentImageSpec args = buildCurrentSpec elements (Processes (declares ["web"])))
    as Hspec by (vm_compute; reflexivity).
  assert ("web" ∈ dom (Processes (declares ["web"]))) as Hin
    by (apply elem_of_dom; eexists; reflexivity).
  assert ("worker" ∉ dom (Processes (declares ["web"]))) as Hnin
    by (apply not_elem_of_dom; reflexivity).
  assert (CurrentLabels tsuruApp "web" c = (inl (Some runningWeb), c)) as Hread
    by reflexivity.
  split; [exact elements_range|]. split; [exact Hspec|]. split; [exact Hin|].
  split; [exact Hnin|]. split; [exact Hread|].
  split.
  - destruct (compensation_redeploys_or_removes labelsAlwaysValid elements elements_range
                args (Processes (declares ["web"])) "web" c Hspec) as [Hredeploy _].
    exact (Hredeploy Hin runningWeb c Hread eq_refl).
  - destruct (compensation_redeploys_or_removes labelsAlwaysValid elements elements_range
                args (Processes (declares ["web"])) "worker" c Hspec) as [_ Hremove].
    exact (Hremove Hnin).
Defined.

(** C1 on a run to ["v3"], which declares [web], [api] and [worker]: [api]
    is deployed first, the deploy of [web] is rejected (2 replicas scaled
    by -5), [worker] is never touched, [api] is compensated (it is new, so
    it is removed) and the error of [web] is what the stage returns. *)
Lemma updateServices_stops_and_compensates_witness :
  let newSpec : ProcessSpec :=
    {[ "web" := scaleBy (-5); "api" := startState; "worker" := startState ]} in
  let args := argsFor "v3" newSpec in
  let c := clusterWith runningWeb 2 in
  let apiLabels := mkLabelSet "myapp" "api" 1 0 false false in
  (∀ s : gset string, elements s ≡ₚ elements s) ∧
  toDeploy elements args = ["api"; "web"; "worker"] ∧
  StronglySorted String.le (toDeploy elements args) ∧
  ∃ w3 t3,
    compensates labelsAlwaysValid args ["api"]
      (clusterOf {[ "web" := mkService runningWeb 2 "v1";
                    "api" := mkService apiLabels 1 "v3" ]} "v1" ∅) w3 t3 ∧
    updateServices_Forward labelsAlwaysValid elements (mkFWContext args ResNil) c =
      (inr ErrNegativeUnits, w3,
       [EvCurrentLabels "api"; EvDeployService "api" apiLabels 1 "v3"] ++
       [EvCurrentLabels "web"] ++ t3) ∧
    Forall (about ["api"]) t3 ∧
    Forall (λ ev, ¬ about ["worker"] ev)
           ([EvCurrentLabels "api"; EvDeployService "api" apiLabels 1 "v3"] ++
            [EvCurrentLabels "web"] ++ t3).
Proof.
  cbv zeta.
  set (args := argsFor "v3" _).
  set (c1 := clusterOf _ "v1" ∅).
  assert (toDeploy elements args = ["api"; "web"; "worker"]) as Horder
    by (vm_compute; reflexivity).
  destruct (updateServices_stops_and_compensates labelsAlwaysValid elements elements_range
              args ResNil (clusterWith runningWeb 2))
    as ((Hsorted & _ & _) & _ & Hfailure & _).
  split; [exact elements_range|]. split; [exact Horder|]. split; [exact Hsorted|].
  assert (deploys labelsAlwaysValid args ["api"] (clusterWith runningWeb 2) c1
            ([EvCurrentLabels "api";
              EvDeployService "api" (mkLabelSet "myapp" "api" 1 0 false false) 1 "v3"] ++ []))
    as Hpre.
  { eapply deploys_cons; [vm_compute; reflexivity|apply deploys_nil]. }
  rewrite app_nil_r in Hpre.
  assert (deployService labelsAlwaysValid args "web" (newImage args)
            (specAt (newImageSpec args) "web") c1 =
          (Some ErrNegativeUnits, c1, [EvCurrentLabels "web"])) as Hweb
    by (vm_compute; reflexivity).
  destruct (Hfailure ["api"] "web" ["worker"] c1 _ ErrNegativeUnits c1 _ Horder Hpre Hweb)
    as (w3 & t3 & Hcomp & Hrun & _ & _ & Habout & Hpost).
  exists w3, t3. split; [exact Hcomp|]. split; [exact Hrun|]. split; [exact Habout|].
  apply Hpost. by left.
Defined.

(** The same run through [RunServicePipeline] on a cluster where [api]
    cannot be removed: the failure of the compensation is logged and the
    caller still gets the error of [web]. *)
Example run_logs_compensation_error :
  let u : ProcessSpec :=
    {[ "web" := scaleBy (-5); "api" := startState; "worker" := startState ]} in
  let c := clusterOf {[ "web" := mkService runningWeb 2 "v1" ]} "v1" {[ "api" ]} in
  let r := RunServicePipeline labelsAlwaysValid elements tsuruApp "v3" (Some u) c in
  value_of r = Some ErrNegativeUnits ∧
  events_of r =
    [EvAppCurrentImageName "myapp"; EvGetImageCustomData "v1"; EvGetImageCustomData "v3";
     EvCurrentLabels "api";
     EvDeployService "api" (mkLabelSet "myapp" "api" 1 0 false false) 1 "v3";
     EvCurrentLabels "web";
     EvRemoveService "api";
     EvLog (LogRollbackError "myapp" "api" (ErrExternal "remove failed"))].
Proof. cbv zeta. split; vm_compute; reflexivity. Qed.

(** ** The further properties on the cluster held in memory *)

Lemma deployService_call_discipline_witness :
  let r := deployService labelsAlwaysValid (argsFor "v2" ∅) "web" "v2" startState
             (clusterWith runningWeb 2) in
  value_of r = None ∧
  ∃ labels n, events_of r = [EvCurrentLabels "web"; EvDeployService "web" labels n "v2"].
Proof.
  cbv zeta.
  assert (value_of (deployService labelsAlwaysValid (argsFor "v2" ∅) "web" "v2" startState
                      (clusterWith runningWeb 2)) = None) as Hnil by reflexivity.
  split; [exact Hnil|].
  destruct (deployService_call_discipline labelsAlwaysValid (argsFor "v2" ∅) "web" "v2"
              startState (clusterWith runningWeb 2)) as (_ & _ & Hdeployed).
  exact (Hdeployed Hnil).
Defined.


Lemma restart_increments_counter_witness :
  let pState := mkProcessState false false true false 0 in
  let c := clusterWith (mkLabelSet "myapp" "web" 2 4 false false) 2 in
  let labels := mkLabelSet "myapp" "web" 2 5 false false in
  Restart pState = true ∧
  CurrentLabels tsuruApp "web" c =
    (inl (Some (mkLabelSet "myapp" "web" 2 4 false false)), c) ∧
  EvDeployService "web" labels 2 "v2"
    ∈ events_of (deployService labelsAlwaysValid (argsFor "v2" ∅) "web" "v2" pState c) ∧
  Restarts labels = 4 + 1.
Proof.
  cbv zeta.
  set (old := mkLabelSet "myapp" "web" 2 4 false false).
  assert (CurrentLabels tsuruApp "web" (clusterWith old 2) =
            (inl (Some old), clusterWith old 2)) as Hread by reflexivity.
  assert (EvDeployService "web" (mkLabelSet "myapp" "web" 2 5 false false) 2 "v2"
            ∈ events_of (deployService labelsAlwaysValid (argsFor "v2" ∅) "web" "v2"
                           (mkProcessState false false true false 0) (clusterWith old 2)))
    as Hin.
  { replace (events_of _) with
      [EvCurrentLabels "web";
       EvDeployService "web" (mkLabelSet "myapp" "web" 2 5 false false) 2 "v2"]
      by reflexivity.
    right. left. }
  split; [reflexivity|]. split; [exact Hread|]. split; [exact Hin|].
  destruct (restart_increments_counter labelsAlwaysValid (argsFor "v2" ∅) "web" "v2"
              (mkProcessState false false true false 0) (clusterWith old 2)
              (Some old) (clusterWith old 2) "web" _ 2 "v2" eq_refl Hread Hin)
    as [Hplus _].
  apply Hplus. unfold int_min, int_max. cbn. lia.
Defined.

Lemma deployPlan_idempotent_witness :
  let labels := mkLabelSet "myapp" "web" 2 0 true false in
  Increment stopState = 0 ∧ Restart stopState = false ∧
  deployPlan labelsAlwaysValid tsuruApp "web" stopState (Some runningWeb) = inl (labels, 0) ∧
  deployPlan labelsAlwaysValid tsuruApp "web" stopState (Some labels) = inl (labels, 0).
Proof.
  cbv zeta.
  assert (deployPlan labelsAlwaysValid tsuruApp "web" stopState (Some runningWeb) =
            inl (mkLabelSet "myapp" "web" 2 0 true false, 0)) as Hplan by reflexivity.
  split; [reflexivity|]. split; [reflexivity|]. split; [exact Hplan|].
  exact (deployPlan_idempotent labelsAlwaysValid tsuruApp "web" stopState (Some runningWeb)
           _ _ eq_refl eq_refl Hplan).
Defined.

Lemma invalid_scale_iff_witness :
  let pState := scaleBy (-2) in
  0 <= replicas (seedState (Some runningWeb)) <= int_max ∧
  is_int (Increment pState) ∧
  0 <= replicas (seedState (Some runningWeb)) + Increment pState <= int_max ∧
  ∃ s, mergeState pState (Some runningWeb) = inl s ∧
       replicas s =
         if (Start pState || Restart pState) &&
            bool_decide (replicas (seedState (Some runningWeb)) + Increment pState = 0)
         then 1 else replicas (seedState (Some runningWeb)) + Increment pState.
Proof.
  cbv zeta.
  assert (0 <= replicas (seedState (Some runningWeb)) <= int_max) as Hr
    by (unfold int_max; cbn; lia).
  assert (is_int (Increment (scaleBy (-2)))) as Hint by (apply is_int_small; cbn; lia).
  assert (0 <= replicas (seedState (Some runningWeb)) + Increment (scaleBy (-2)) <= int_max)
    as Hsum by (unfold int_max; cbn; lia).
  split; [exact Hr|]. split; [exact Hint|]. split; [exact Hsum|].
  destruct (invalid_scale_iff (scaleBy (-2)) (Some runningWeb) Hr Hint) as [_ Hgood].
  exact (Hgood Hsum).
Defined.

Lemma rollbackAddedProcesses_visits_all_witness :
  let args := argsFor "v2" {[ "web" := startState; "worker" := startState ]} in
  let c := clusterOf {[ "web" := mkService runningWeb 2 "v2" ]} "v1" {[ "worker" ]} in
  "web" ∈ ["worker"; "web"] ∧
  EvLog (LogRollbackError "myapp" "worker" (ErrExternal "remove failed"))
    ∈ events_of (rollbackAddedProcesses labelsAlwaysValid args ["worker"; "web"] c) ∧
  EvCurrentLabels "web"
    ∈ events_of (rollbackAddedProcesses labelsAlwaysValid args ["worker"; "web"] c).
Proof.
  cbv zeta.
  set (args := argsFor "v2" _). set (c := clusterOf _ "v1" _).
  assert ("web" ∈ ["worker"; "web"]) as Hin by (right; left).
  split; [exact Hin|]. split.
  - replace (events_of _) with
      [EvRemoveService "worker";
       EvLog (LogRollbackError "myapp" "worker" (ErrExternal "remove failed"));
       EvCurrentLabels "web"; EvDeployService "web" runningWeb 2 "v1"]
      by (vm_compute; reflexivity).
    right. left.
  - destruct (rollbackAddedProcesses_visits_all labelsAlwaysValid args ["worker"; "web"] c)
      as (Hvisit & _ & _).
    exact (Hvisit "web" Hin).
Defined.

Lemma updateServices_Backward_undoes_Forward_witness :
  let args := argsFor "v2" {[ "web" := startState; "worker" := startState ]} in
  let c := clusterWith runningWeb 2 in
  let forward := updateServices_Forward labelsAlwaysValid elements (mkFWContext args ResNil) c in
  forward = (inl (ResStrings ["web"; "worker"]), world_of forward, events_of forward) ∧
  ResStrings ["web"; "worker"] = ResStrings (toDeploy elements args) ∧
  ∀ w2, updateServices_Backward labelsAlwaysValid
          (mkBWContext args (ResStrings ["web"; "worker"])) w2 =
        rollbackAddedProcesses labelsAlwaysValid args (toDeploy elements args) w2.
Proof.
  cbv zeta.
  set (args := argsFor "v2" _). set (c := clusterWith runningWeb 2).
  assert (updateServices_Forward labelsAlwaysValid elements (mkFWContext args ResNil) c =
          (inl (ResStrings ["web"; "worker"]),
           world_of (updateServices_Forward labelsAlwaysValid elements
                       (mkFWContext args ResNil) c),
           events_of (updateServices_Forward labelsAlwaysValid elements
                        (mkFWContext args ResNil) c))) as Hforward.
  { rewrite (run_eta (updateServices_Forward _ _ _ _)) at 1. reflexivity. }
  split; [exact Hforward|].
  destruct (updateServices_Backward_undoes_Forward labelsAlwaysValid elements
              args ResNil c _ _ _ Hforward) as (Hres & _ & Hback).
  split; [exact Hres|exact Hback].
Defined.

Lemma RunServicePipeline_read_errors_witness :
  let c := mkCluster ∅ imageTable ∅ ∅ in
  AppCurrentImageName "myapp" c = (inr (ErrExternal "no images available for app"), c) ∧
  RunServicePipeline labelsAlwaysValid elements tsuruApp "v2" None c =
    (Some (ErrExternal "no images available for app"), c, [EvAppCurrentImageName "myapp"]).
Proof.
  cbv zeta.
  assert (AppCurrentImageName "myapp" (mkCluster ∅ imageTable ∅ ∅) =
            (inr (ErrExternal "no images available for app"), mkCluster ∅ imageTable ∅ ∅))
    as Hcur by reflexivity.
  split; [exact Hcur|].
  destruct (RunServicePipeline_read_errors labelsAlwaysValid elements tsuruApp "v2" None
              (mkCluster ∅ imageTable ∅ ∅)) as (Hfirst & _ & _).
  exact (Hfirst _ _ Hcur).
Defined.

Lemma reverse_range (s : gset string) : reverse (elements s) ≡ₚ elements s.
Proof. apply reverse_Permutation. Qed.

Lemma toDeploy_order_independent_witness :
  let args := argsFor "v3" {[ "web" := startState; "api" := startState ]} in
  (∀ s : gset string, elements s ≡ₚ elements s) ∧
  (∀ s : gset string, reverse (elements s) ≡ₚ elements s) ∧
  toDeploy elements args = toDeploy (λ s, reverse (elements s)) args ∧
  updateServices_Forward labelsAlwaysValid elements (mkFWContext args ResNil)
    (clusterWith runningWeb 2) =
  updateServices_Forward labelsAlwaysValid (λ s, reverse (elements s))
    (mkFWContext args ResNil) (clusterWith runningWeb 2).
Proof.
  cbv zeta. split; [exact elements_range|]. split; [exact reverse_range|].
  exact (toDeploy_order_independent labelsAlwaysValid elements elements_range
           (λ s, reverse (elements s))
           (argsFor "v3" {[ "web" := startState; "api" := startState ]}) ResNil
           (clusterWith runningWeb 2) reverse_range).
Defined.

Lemma specs_independent_of_range_order_witness :
  let processes := Processes (declares ["web"; "worker"]) in
  (∀ s : gset string, reverse (elements s) ≡ₚ elements s) ∧
  buildCurrentSpec (λ s, reverse (elements s)) processes = (λ _, zeroState) <$> processes ∧
  buildNewSpec (λ s, reverse (elements s)) processes None =
    map_imap (λ p _, Some (requestedState None p)) processes.
Proof.
  cbv zeta. split; [exact reverse_range|].
  exact (specs_independent_of_range_order (λ s, reverse (elements s)) reverse_range
           (Processes (declares ["web"; "worker"])) None).
Defined.

Lemma run_with_value {W A} (r : A * W * list Event) (a : A) :
  value_of r = a → r = (a, world_of r, events_of r).
Proof. intros <-. apply run_eta. Qed.

Lemma answer_with_value {W A} (r : A * W) (a : A) : r.1 = a → r = (a, r.2).
Proof. intros <-. by destruct r. Qed.

(** X11 on the run from ["v2"] back to ["v1"], where [worker] is dropped
    and cannot be removed. *)
Lemma RunServicePipeline_success_witness :
  let c := clusterOf {[ "web" := mkService runningWeb 2 "v2";
                        "worker" := mkService (mkLabelSet "myapp" "worker" 1 0 false false) 1 "v2" ]}
                     "v2" {[ "worker" ]} in
  (∀ s : gset string, elements s ≡ₚ elements s) ∧
  AppCurrentImageName "myapp" c = (inl "v2", c) ∧
  GetImageCustomData "v2" c = (inl (declares ["web"; "worker"]), c) ∧
  GetImageCustomData "v1" c = (inl (declares ["web"]), c) ∧
  size (Processes (declares ["web"])) ≠ 0%nat ∧
  ∃ wC tA tC,
    RunServicePipeline labelsAlwaysValid elements tsuruApp "v1" None c =
      (None, wC,
       [EvAppCurrentImageName "myapp"; EvGetImageCustomData "v2";
        EvGetImageCustomData "v1"] ++
       tA ++ [EvAppendAppImageName "myapp" "v1"] ++ tC) ∧
    tC = [EvRemoveService "worker";
          EvLog (LogIgnoredRemoveError "myapp" "worker" (ErrExternal "remove failed"))].
Proof.
  cbv zeta. set (c := clusterOf _ "v2" _).
  assert (AppCurrentImageName "myapp" c = (inl "v2", c)) as Hcur by reflexivity.
  assert (GetImageCustomData "v2" c = (inl (declares ["web"; "worker"]), c)) as Hdata
    by reflexivity.
  assert (GetImageCustomData "v1" c = (inl (declares ["web"]), c)) as Hnew by reflexivity.
  assert (size (Processes (declares ["web"])) ≠ 0%nat) as Hsize by (vm_compute; lia).
  split; [exact elements_range|]. split; [exact Hcur|]. split; [exact Hdata|].
  split; [exact Hnew|]. split; [exact Hsize|].
  set (args := mkPipelineArgs tsuruApp "v1"
                 (buildNewSpec elements (Processes (declares ["web"])) None) "v2"
                 (buildCurrentSpec elements (Processes (declares ["web"; "worker"])))).
  assert (toDeploy elements args = ["web"]) as Horder by (vm_compute; reflexivity).
  set (web := deployService labelsAlwaysValid args "web" (newImage args)
                (specAt (newImageSpec args) "web") c).
  assert (deploys labelsAlwaysValid args (toDeploy elements args) c
            (world_of web) (events_of web ++ [])) as Hdeploys.
  { rewrite Horder. eapply deploys_cons; [|apply deploys_nil].
    apply run_with_value. vm_compute. reflexivity. }
  assert (AppendAppImageName "myapp" "v1" (world_of web) =
            (None, (AppendAppImageName "myapp" "v1" (world_of web)).2)) as Happend.
  { apply answer_with_value. vm_compute. reflexivity. }
  pose proof (RunServicePipeline_success labelsAlwaysValid elements elements_range
                tsuruApp "v1" None c "v2" c (declares ["web"; "worker"]) c (declares ["web"])
                c _ _ _ Hcur Hdata Hnew Hsize Hdeploys Happend) as Hrun.
  cbv zeta in Hrun. eexists _, _, _. split; [exact Hrun|].
  vm_compute. reflexivity.
Defined.

(** X12 on the store that cannot record an image: the run to ["v2"] deploys
    [web] and [worker], the append fails, [web] is deployed again with
    ["v1"] and [worker] is removed. *)
Lemma RunServicePipeline_image_append_fails_witness :
  let c := clusterWith runningWeb 2 in
  let pipeline := @RunServicePipeline Cluster cluster_manager cluster_images_readonly in
  @AppCurrentImageName Cluster cluster_images_readonly "myapp" c = (inl "v1", c) ∧
  @GetImageCustomData Cluster cluster_images_readonly "v1" c = (inl (declares ["web"]), c) ∧
  @GetImageCustomData Cluster cluster_images_readonly "v2" c =
    (inl (declares ["web"; "worker"]), c) ∧
  size (Processes (declares ["web"; "worker"])) ≠ 0%nat ∧
  ∃ wU tA tU,
    pipeline labelsAlwaysValid elements tsuruApp "v2" None c =
      (Some (ErrWithStack (ErrExternal "read-only store")), wU,
       [EvAppCurrentImageName "myapp"; EvGetImageCustomData "v1";
        EvGetImageCustomData "v2"] ++
       tA ++ [EvAppendAppImageName "myapp" "v2"] ++ tU) ∧
    tU = [EvCurrentLabels "web"; EvDeployService "web" runningWeb 2 "v1";
          EvRemoveService "worker"] ∧
    services wU !! "worker" = None.
Proof.
  cbv zeta. set (c := clusterWith runningWeb 2).
  assert (@AppCurrentImageName Cluster cluster_images_readonly "myapp" c = (inl "v1", c))
    as Hcur by reflexivity.
  assert (@GetImageCustomData Cluster cluster_images_readonly "v1" c =
            (inl (declares ["web"]), c)) as Hdata by reflexivity.
  assert (@GetImageCustomData Cluster cluster_images_readonly "v2" c =
            (inl (declares ["web"; "worker"]), c)) as Hnew by reflexivity.
  assert (size (Processes (declares ["web"; "worker"])) ≠ 0%nat) as Hsize
    by (vm_compute; lia).
  split; [exact Hcur|]. split; [exact Hdata|].
  split; [exact Hnew|]. split; [exact Hsize|].
  set (args := mkPipelineArgs tsuruApp "v2"
                 (buildNewSpec elements (Processes (declares ["web"; "worker"])) None) "v1"
                 (buildCurrentSpec elements (Processes (declares ["web"])))).
  assert (toDeploy elements args = ["web"; "worker"]) as Horder by (vm_compute; reflexivity).
  set (web := deployService labelsAlwaysValid args "web" (newImage args)
                (specAt (newImageSpec args) "web") c).
  set (worker := deployService labelsAlwaysValid args "worker" (newImage args)
                   (specAt (newImageSpec args) "worker") (world_of web)).
  assert (deploys labelsAlwaysValid args (toDeploy elements args) c
            (world_of worker) (events_of web ++ events_of worker ++ [])) as Hdeploys.
  { rewrite Horder. eapply deploys_cons; [|eapply deploys_cons; [|apply deploys_nil]].
    - apply run_with_value. vm_compute. reflexivity.
    - apply run_with_value. vm_compute. reflexivity. }
  assert (@AppendAppImageName Cluster cluster_images_readonly "myapp" "v2" (world_of worker) =
            (Some (ErrExternal "read-only store"),
             (@AppendAppImageName Cluster cluster_images_readonly "myapp" "v2"
                (world_of worker)).2)) as Happend.
  { apply answer_with_value. vm_compute. reflexivity. }
  pose proof (@RunServicePipeline_image_append_fails Cluster cluster_manager
                cluster_images_readonly labelsAlwaysValid elements
                tsuruApp "v2" None c "v1" c (declares ["web"]) c (declares ["web"; "worker"])
                c _ _ _ _ Hcur Hdata Hnew Hsize Hdeploys Happend) as Hrun.
  cbv zeta in Hrun. eexists _, _, _. split; [exact Hrun|].
  split; vm_compute; reflexivity.
Defined.

(** ** The healing history on the sample stores *)

Module HealerExamples.

Import Healer HealerSample.

#[local] Existing Instance sampleDomain.
#[local] Existing Instance sampleCodec.
#[local] Existing Instance sampleStore.

(** X13 on a record whose action no migration knows. *)
Lemma healingEventToEvent_rejects_witness :
  let w := storeWith [] [] in
  ID oldUnknown = Some (IdObject 2%nat) ∧
  Action oldUnknown ≠ "node-healing" ∧
  Action oldUnknown ≠ "container-healing" ∧
  healingEventToEvent oldUnknown w =
    (Returned (Some (ErrInvalidAction "machine-healing")), w, []).
Proof.
  cbv zeta.
  assert (Action oldUnknown ≠ "node-healing") as Hnode by discriminate.
  assert (Action oldUnknown ≠ "container-healing") as Hcontainer by discriminate.
  split; [reflexivity|]. split; [exact Hnode|]. split; [exact Hcontainer|].
  destruct (HealerFacts.healingEventToEvent_rejects oldUnknown (storeWith [] []))
    as [_ Hinvalid].
  exact (Hinvalid 2%nat eq_refl Hnode Hcontainer).
Defined.

(** X14 on a node healing of the old collection. *)
Lemma healingEventToEvent_inserts_witness :
  let w := storeWith [] [] in
  ID oldNode = Some (IdObject 1%nat) ∧
  (Action oldNode = "node-healing" ∨ Action oldNode = "container-healing") ∧
  ∃ pre evt startOpts endOpts,
    (healingEventToEvent oldNode w).2 = pre ++ [CallRawInsert evt startOpts endOpts] ∧
    Forall (λ c, is_insert c = false) pre ∧
    UniqueID evt = 1%nat ∧
    evStartTime evt = StartTime oldNode ∧ evEndTime evt = EndTime oldNode ∧
    evKind evt = mkKind KindTypeInternal "healer".
Proof.
  cbv zeta. split; [reflexivity|].
  assert (Action oldNode = "node-healing" ∨ Action oldNode = "container-healing")
    as Haction by (by left).
  split; [exact Haction|].
  destruct (HealerFacts.healingEventToEvent_inserts oldNode 1%nat (storeWith [] [])
              eq_refl Haction)
    as (pre & evt & startOpts & endOpts & w1 & Hcalls & Hpre & _ & _ & Hid & Hstart &
        Hend & _ & _ & Hkind & _).
  exists pre, evt, startOpts, endOpts.
  split; [exact Hcalls|]. split; [exact Hpre|]. split; [exact Hid|].
  split; [exact Hstart|]. split; [exact Hend|]. exact Hkind.
Defined.

(** X15 on a container healing of the event log. *)
Lemma listed_event_migrates_back_witness :
  let w := storeWith [containerEvent] [] in
  let listed := listedContainer in
  TargetTypeContainer = "container" ∧
  TargetTypeNode = "node" ∧
  (targetType (evTarget containerEvent) = "container" ∨
   targetType (evTarget containerEvent) = "node") ∧
  toHealingEvt containerEvent = inl listed ∧
  ∃ pre evt' startOpts endOpts,
    (healingEventToEvent listed w).2 = pre ++ [CallRawInsert evt' startOpts endOpts] ∧
    UniqueID evt' = UniqueID containerEvent ∧
    evStartTime evt' = evStartTime containerEvent ∧
    evEndTime evt' = evEndTime containerEvent ∧
    startOpts = DataContainer (FailingContainer listed) ∧
    endOpts = DataContainer (CreatedContainer listed).
Proof.
  cbv zeta.
  set (listed := listedContainer).
  assert (targetType (evTarget containerEvent) = "container" ∨
          targetType (evTarget containerEvent) = "node") as Htype by (by left).
  assert (toHealingEvt containerEvent = inl listed) as Hlisted by reflexivity.
  split; [reflexivity|]. split; [reflexivity|]. split; [exact Htype|].
  split; [exact Hlisted|].
  destruct (HealerFacts.listed_event_migrates_back containerEvent listed
              (storeWith [containerEvent] []) eq_refl eq_refl Htype Hlisted)
    as (pre & evt' & startOpts & endOpts & Hcalls & Hid & Hstart & Hend & _ & _ &
        Hcontainer & _).
  destruct (Hcontainer eq_refl) as (_ & _ & Hs & He).
  exists pre, evt', startOpts, endOpts.
  split; [exact Hcalls|]. split; [exact Hid|]. split; [exact Hstart|].
  split; [exact Hend|]. split; [exact Hs|exact He].
Defined.

(** X16 on the filter ["bogus"]. *)
Lemma ListHealingHistory_unknown_filter_witness :
  let w := storeWith [containerEvent; nodeEvent] [] in
  GetTargetType "bogus" = inr (ErrExternal "invalid event target type") ∧
  ListHealingHistory "bogus" w = ListHealingHistory "" w.
Proof.
  cbv zeta.
  assert (GetTargetType "bogus" = inr (ErrExternal "invalid event target type"))
    as Hunknown by reflexivity.
  split; [exact Hunknown|].
  exact (HealerFacts.ListHealingHistory_unknown_filter "bogus" _
           (storeWith [containerEvent; nodeEvent] []) Hunknown).
Defined.

(** X17 on a log whose second event cannot be decoded: the listing fails
    with the error of that event. *)
Lemma ListHealingHistory_all_or_nothing_witness :
  let w := storeWith [containerEvent; brokenEvent; nodeEvent] [] in
  (ListHealingHistory "" w).1.1 = inr (ErrExternal "cannot decode a container") ∧
  ∃ pre evt post,
    [containerEvent; brokenEvent; nodeEvent] = pre ++ evt :: post ∧
    Forall (λ e, ∃ h, toHealingEvt e = inl h) pre ∧
    toHealingEvt evt = inr (ErrExternal "cannot decode a container").
Proof.
  cbv zeta.
  assert ((ListHealingHistory "" (storeWith [containerEvent; brokenEvent; nodeEvent] [])).1.1
          = inr (ErrExternal "cannot decode a container")) as Hfails by reflexivity.
  split; [exact Hfails|].
  destruct (HealerFacts.ListHealingHistory_all_or_nothing ""
              (storeWith [containerEvent; brokenEvent; nodeEvent] []))
    as (evtFilter & _ & _ & _ & Htarget & Hresult).
  assert ((List evtFilter (storeWith [containerEvent; brokenEvent; nodeEvent] [])).1 =
          inl [containerEvent; brokenEvent; nodeEvent]) as Hlist.
  { cbn. rewrite Htarget. reflexivity. }
  rewrite Hlist in Hresult. destruct Hresult as [_ Hfirst].
  exact (Hfirst _ Hfails).
Defined.

(** X18 on an old collection whose second record has an unknown action:
    the first record is inserted, the second ends the loop, the third is
    never read. *)
Lemma migrateLoop_stops_at_first_failure_witness :
  let w := storeWith [] [oldNode; oldUnknown; oldContainer] in
  ∃ w' t,
    migrated sampleIter zeroHealingEvent w oldNode w' t 1 ∧
    IterNext sampleIter oldNode w' = ((true, oldUnknown), (IterNext sampleIter oldNode w').2) ∧
    cursor (IterNext sampleIter oldNode w').2 = [oldContainer] ∧
    migrateLoop 5 sampleIter zeroHealingEvent w =
      (Some (Returned (Some (ErrInvalidAction "machine-healing"))),
       (IterNext sampleIter oldNode w').2, t ++ [CallIterNext sampleIter]).
Proof.
  cbv zeta.
  set (w := storeWith [] [oldNode; oldUnknown; oldContainer]).
  set (w1 := (IterNext sampleIter zeroHealingEvent w).2).
  set (r := healingEventToEvent oldNode w1).
  assert (migrated sampleIter zeroHealingEvent w oldNode r.1.2
            (CallIterNext sampleIter :: r.2 ++ []) 1) as Hmig.
  { eapply migrated_cons; [| |apply migrated_nil].
    - reflexivity.
    - reflexivity. }
  set (w2 := (IterNext sampleIter oldNode r.1.2).2).
  assert (IterNext sampleIter oldNode r.1.2 = ((true, oldUnknown), w2)) as Hnext by reflexivity.
  assert (healingEventToEvent oldUnknown w2 =
            (Returned (Some (ErrInvalidAction "machine-healing")), w2, [])) as Hconv
    by reflexivity.
  exists r.1.2, (CallIterNext sampleIter :: r.2 ++ []).
  split; [exact Hmig|]. split; [exact Hnext|]. split; [reflexivity|].
  destruct (HealerFacts.migrateLoop_stops_at_first_failure sampleIter zeroHealingEvent w
              oldNode r.1.2 _ 1 Hmig) as (Hstop & _ & _).
  refine (Hstop 5%nat oldUnknown w2 _ w2 [] _ Hnext Hconv _); [lia|discriminate].
Defined.

End HealerExamples.
